(** * PDFQAAgent: chunking, retrieval and orchestration policies

    A shallow embedding of the policy layer of the PDF question-answering
    agent (services/chunking_strategies.py, services/retrieval_service.py,
    services/document_processor.py, services/vector_store.py and main.py),
    followed by the properties established for it.

    Conventions.
    - A Python [str] is a [string] read as the sequence of its code points;
      only code points below 256 are covered.
    - A Python [float] is a binary64 [float] of the kernel, so products, sums
      and quotients round exactly as CPython's do.
    - A dict with string keys is a [gmap string _]; a set of strings is a
      [gset string].
    - Code that may raise returns a [result]; code that calls a collaborator
      (vector store, language model) runs in [Exec], which also records the
      calls made, in order.
    - Third-party objects (text splitters, embedding models, the PDF reader,
      the vector database, the language model) are taken as they answer:
      a function from the arguments of a call to its outcome. *)

From Stdlib Require Import Floats Uint63 ZArith Ascii String DecimalString.
From Stdlib Require DecimalZ.
From stdpp Require Import gmap strings list sorting.

Set Warnings "-inexact-float".
Open Scope string_scope.

(** ** Python strings *)

Module Str.

(** [str.isspace] on one code point below 256. *)
Definition isspace (c : ascii) : bool :=
  let n := N_of_ascii c in
  ((9 <=? n) && (n <=? 13) || (28 <=? n) && (n <=? 32)
   || (n =? 133) || (n =? 160))%N.

(** [str.lower] on one code point below 256: the ASCII capitals and the
    Latin-1 capitals (all of 192..222 except the multiplication sign). *)
Definition lower_char (c : ascii) : ascii :=
  let n := N_of_ascii c in
  if ((65 <=? n) && (n <=? 90)
      || (192 <=? n) && (n <=? 222) && negb (n =? 215))%N
  then ascii_of_N (n + 32) else c.

Fixpoint lower (s : string) : string :=
  match s with
  | EmptyString => EmptyString
  | String c s' => String (lower_char c) (lower s')
  end.

Definition is_empty (s : string) : bool :=
  match s with EmptyString => true | _ => false end.

(** [str.split()] with no separator: the maximal runs of non-space
    characters, in order; [cur] is the run being read. *)
Fixpoint split_from (cur : string) (s : string) : list string :=
  match s with
  | EmptyString => if is_empty cur then [] else [cur]
  | String c s' =>
      if isspace c
      then (if is_empty cur then split_from "" s' else cur :: split_from "" s')
      else split_from (cur ++ String c "") s'
  end.

Definition split (s : string) : list string := split_from "" s.

(** [s.split('. ')]: cut at every occurrence of a full stop followed by a
    space, left to right; never empty. *)
Fixpoint split_sentences_from (cur : string) (s : string) : list string :=
  match s with
  | EmptyString => [cur]
  | String c s' =>
      match s' with
      | String d s'' =>
          if (Ascii.eqb c "." && Ascii.eqb d " ")%bool
          then cur :: split_sentences_from "" s''
          else split_sentences_from (cur ++ String c "") s'
      | EmptyString => [cur ++ String c ""]
      end
  end.

Definition split_sentences (s : string) : list string :=
  split_sentences_from "" s.

(** [s.startswith(p)] and [s.endswith(p)]. *)
Definition startswith (s p : string) : bool := String.prefix p s.

(** [p] is [s] or the end of what follows the first character of [s]. *)
Fixpoint endswith (s p : string) : bool :=
  String.eqb s p
  || match s with
     | String _ s' => endswith s' p
     | EmptyString => false
     end.

(** [s.startswith((p1, ..., pn))]. *)
Definition startswith_any (s : string) (ps : list string) : bool :=
  existsb (startswith s) ps.

(** [s[:n]]. *)
Definition take (n : nat) (s : string) : string := String.substring 0 n s.

(** [sep.join(l)]. *)
Definition join (sep : string) (l : list string) : string :=
  String.concat sep l.

Fixpoint lstrip (s : string) : string :=
  match s with
  | String c s' => if isspace c then lstrip s' else s
  | EmptyString => EmptyString
  end.

(** [s.strip()]. *)
Definition strip (s : string) : string :=
  String.rev (lstrip (String.rev (lstrip s))).

(** [len(s)]. *)
Definition len (s : string) : Z := Z.of_nat (String.length s).

(** [str(n)] for an int. *)
Definition of_nat (n : nat) : string := NilEmpty.string_of_uint (Nat.to_uint n).
Definition of_Z (z : Z) : string := NilEmpty.string_of_int (Z.to_int z).

End Str.

(** ** Exceptions and outcomes *)

(** The exceptions below [Exception] that the modelled code meets: the
    interpreter's own [ZeroDivisionError] and [KeyError], and whatever a
    collaborator raises, kept with its message. *)
Inductive exn : Type :=
  | ZeroDivisionError
  | KeyError (key : string)
  | LibraryError (msg : string).

(** [str(e)]. *)
Definition exn_message (e : exn) : string :=
  match e with
  | ZeroDivisionError => "division by zero"
  | KeyError key => "'" ++ key ++ "'"
  | LibraryError msg => msg
  end.

Inductive result (A : Type) : Type :=
  | Ok (a : A)
  | Raise (e : exn).
Arguments Ok {A} a.
Arguments Raise {A} e.

Global Instance result_ret : MRet result := fun _ a => Ok a.
Global Instance result_bind : MBind result := fun _ _ f r =>
  match r with Ok a => f a | Raise e => Raise e end.

(** ** Python floats *)

(** [float(n)] for a non-negative int below 2^63: the nearest binary64
    value, [n] itself below 2^53. *)
Definition float_of_nat (n : nat) : float :=
  PrimFloat.of_uint63 (Uint63.of_Z (Z.of_nat n)).

(** [a / b] on two non-negative ints (true division): for operands below
    2^53, as every count of terms is, the quotient of the two floats. *)
Definition int_truediv (a b : nat) : result float :=
  match b with
  | O => Raise ZeroDivisionError
  | S _ => Ok (float_of_nat a / float_of_nat b)%float
  end.

(** ** Sorting

    [sorted(l, key=k, reverse=True)] and [l.sort(key=k, reverse=True)]:
    CPython compares keys with [<] only and keeps elements with equal keys
    in their original order, also when reversed. An element therefore moves
    behind exactly those later elements whose key is strictly greater.
    That determines the result whenever [<] orders the keys present, that
    is when none of them is a NaN, and whenever no element precedes a
    strictly greater one; with a NaN among unordered keys the interpreter's
    own sequence of comparisons decides, and every statement below about the
    order of a result supposes there is none. *)
Section Sorting.
Context {A : Type} (key : A → float).

Fixpoint insert_desc (x : A) (l : list A) : list A :=
  match l with
  | [] => [x]
  | y :: l' =>
      if (key x <? key y)%float then y :: insert_desc x l' else x :: l
  end.

Definition sorted_reverse (l : list A) : list A := foldr insert_desc [] l.

(** No element is followed, anywhere later, by one with a greater key. *)
Definition descending (l : list A) : Prop :=
  StronglySorted (λ a b, (key a <? key b)%float = false) l.
End Sorting.

(** Python's [<] is a strict weak order on the floats of [ks]: it is never
    true both ways, and "not less" is transitive. *)
Definition lt_strict_weak_on (ks : list float) : Prop :=
  ∀ x y z, x ∈ ks → y ∈ ks → z ∈ ks →
    ((x <? y)%float = true → (y <? x)%float = false) ∧
    ((x <? y)%float = false → (y <? z)%float = false → (x <? z)%float = false).

(** No float of [ks] is a NaN. *)
Definition no_nan (ks : list float) : Prop :=
  Forall (λ x, PrimFloat.is_nan x = false) ks.

(** The place of a binary64 value that is not a NaN on the line: a triple of
    integers compared lexicographically (class and sign, then exponent, then
    mantissa, the last two negated for negative values). *)
Definition sf_key (f : spec_float) : Z * Z * Z :=
  match f with
  | S754_nan => (0, 0, 0)
  | S754_zero _ => (0, 0, 0)
  | S754_infinity true => (-2, 0, 0)
  | S754_infinity false => (2, 0, 0)
  | S754_finite false m e => (1, e, Zpos m)
  | S754_finite true m e => (-1, - e, Zneg m)
  end%Z.

Definition lex_compare (a b : Z * Z * Z) : comparison :=
  match (a.1.1 ?= b.1.1)%Z with
  | Eq => match (a.1.2 ?= b.1.2)%Z with
          | Eq => (a.2 ?= b.2)%Z
          | c => c
          end
  | c => c
  end.

Definition lex_lt (a b : Z * Z * Z) : Prop :=
  (a.1.1 < b.1.1 ∨ a.1.1 = b.1.1 ∧ (a.1.2 < b.1.2 ∨ a.1.2 = b.1.2 ∧ a.2 < b.2))%Z.

(** ** Data model *)

(** The values found in chunk metadata. *)
Inductive value : Type :=
  | VStr (s : string)
  | VInt (z : Z)
  | VBool (b : bool).

(** [str(v)], as an f-string renders it. *)
Definition str_of_value (v : value) : string :=
  match v with
  | VStr s => s
  | VInt z => Str.of_Z z
  | VBool true => "True"
  | VBool false => "False"
  end.

(** A chunk record: [{"content": ..., "metadata": {...}}]. *)
Record chunk : Type := Chunk {
  chunk_content : string;
  chunk_metadata : gmap string value
}.

(** A retrieved snippet: the dict [similarity_search] returns, with the
    score keys the retrieval strategies add; an absent key is [None]. *)
Record snippet : Type := Snippet {
  content : string;
  metadata : gmap string value;
  similarity_score : option float;
  hybrid_score : option float;
  relevance_score : option float
}.

(** [doc["hybrid_score"] = h] and [doc["relevance_score"] = r]. *)
Definition set_hybrid_score (h : float) (doc : snippet) : snippet :=
  Snippet (content doc) (metadata doc) (similarity_score doc) (Some h)
          (relevance_score doc).

Definition set_relevance_score (r : float) (doc : snippet) : snippet :=
  Snippet (content doc) (metadata doc) (similarity_score doc)
          (hybrid_score doc) (Some r).

(** [doc.get(key, 0)] on a score key. *)
Definition score_or_zero (o : option float) : float := default 0%float o.

(** ** Calls to collaborators *)

Inductive event : Type :=
  | SimilaritySearch (query : string) (k : nat)
  | AddDocuments (documents : list chunk)
  | DeleteCollection
  | NewVectorStore
  | GenerateResponse (prompt context : string).

(** The calls that read the vector store. *)
Definition is_search (ev : event) : Prop :=
  match ev with SimilaritySearch _ _ => True | _ => False end.

(** A computation that may raise and that records the calls it makes. *)
Definition Exec (A : Type) : Type := list event * result A.

Global Instance Exec_ret : MRet Exec := fun _ a => ([], Ok a).
Global Instance Exec_bind : MBind Exec := fun _ _ f m =>
  match m with
  | (t, Ok a) => let '(t', r) := f a in ((t ++ t')%list, r)
  | (t, Raise e) => (t, Raise e)
  end.

Definition lift {A} (r : result A) : Exec A := ([], r).

(** One call: the event, then what the collaborator answers. *)
Definition call {A} (ev : event) (outcome : result A) : Exec A := ([ev], outcome).

(** [try: m except Exception as e: h e]. *)
Definition try_except {A} (m : Exec A) (h : exn → Exec A) : Exec A :=
  match m with
  | (t, Ok a) => (t, Ok a)
  | (t, Raise e) => let '(t', r) := h e in ((t ++ t')%list, r)
  end.

Definition trace {A} (m : Exec A) : list event := m.1.
Definition outcome {A} (m : Exec A) : result A := m.2.

(** The same for code that raises but calls no recorded collaborator. *)
Definition try_result {A} (r : result A) (h : exn → result A) : result A :=
  match r with Ok a => Ok a | Raise e => h e end.

(** ** Chunking strategies (services/chunking_strategies.py) *)

(** A text splitter of a third-party library: [split_text]. *)
Definition splitter : Type := string → result (list string).

(** config/settings.py, the fields the policy layer reads. *)
Record Settings : Type := {
  chunk_size : Z;
  chunk_overlap : Z;
  embedding_model : string;
  collection_name : string
}.

(** How the third-party constructors answer. *)
Record Libraries : Type := {
  RecursiveCharacterTextSplitter : Z → Z → result splitter;
  HuggingFaceEmbeddings : string → result unit;
  SemanticChunker : result splitter;
  tiktoken_get_encoding : string → result unit
}.

Inductive ChunkingStrategy : Type :=
  | RecursiveChunkingStrategy (text_splitter : splitter)
  | SemanticChunkingStrategy (semantic_chunker : splitter)
  | ContextualChunkingStrategy (base_chunker : splitter)
  | HybridChunkingStrategy (recursive_strategy semantic_strategy : ChunkingStrategy).

(** The loop shared by the recursive and semantic strategies:
    [{**metadata, "chunk_id": i, "chunk_size": len(chunk),
      "chunking_strategy": tag}] for the [i]-th chunk. *)
Definition tagged_chunk (tag : string) (md : gmap string value)
    (i : nat) (c : string) : chunk :=
  Chunk c (<["chunking_strategy" := VStr tag]>
           (<["chunk_size" := VInt (Str.len c)]>
            (<["chunk_id" := VInt (Z.of_nat i)]> md))).

Definition recursive_chunk_text (text_splitter : splitter)
    (text : string) (md : gmap string value) : result (list chunk) :=
  try_result
    (chunks ← text_splitter text;
     mret (imap (tagged_chunk "recursive" md) chunks))
    (λ e, Raise e).

Definition semantic_chunk_text (semantic_chunker : splitter)
    (text : string) (md : gmap string value) : result (list chunk) :=
  try_result
    (chunks ← semantic_chunker text;
     mret (imap (tagged_chunk "semantic" md) chunks))
    (λ e, Raise e).

(** [ContextualChunkingStrategy._create_document_summary]. *)
Definition _create_document_summary (text : string)
    (md : gmap string value) : string :=
  let sentences := take 3 (Str.split_sentences text) in
  let summary := Str.join ". " sentences in
  let doc_info :=
    "Document: " ++ str_of_value (default (VStr "Unknown") (md !! "filename")) in
  let doc_info :=
    match md !! "page_number" with
    | Some p => doc_info ++ ", Page: " ++ str_of_value p
    | None => doc_info
    end in
  doc_info ++ String "010" "Summary: " ++ summary.

(** [ContextualChunkingStrategy._add_context_to_chunk]. *)
Definition _add_context_to_chunk (c doc_summary : string)
    (chunk_idx total_chunks : nat) : string :=
  ("[Context: This is chunk " ++ Str.of_nat (chunk_idx + 1) ++ " of "
   ++ Str.of_nat total_chunks ++ " from the document]" ++ String "010" ""
   ++ doc_summary ++ String "010" ""
   ++ "[Chunk Content:]" ++ String "010" "")
  ++ c.

Definition contextual_chunk (md : gmap string value) (doc_summary : string)
    (total : nat) (i : nat) (c : string) : chunk :=
  let contextual := _add_context_to_chunk c doc_summary i total in
  Chunk contextual
    (<["has_context" := VBool true]>
     (<["chunking_strategy" := VStr "contextual"]>
      (<["chunk_size" := VInt (Str.len contextual)]>
       (<["chunk_id" := VInt (Z.of_nat i)]> md)))).

Definition contextual_chunk_text (base_chunker : splitter)
    (text : string) (md : gmap string value) : result (list chunk) :=
  try_result
    (let doc_summary := _create_document_summary text md in
     base_chunks ← base_chunker text;
     mret (imap (contextual_chunk md doc_summary (length base_chunks)) base_chunks))
    (λ e, Raise e).

(** [chunk["metadata"]["chunking_strategy"] = "hybrid"]. *)
Definition retag_hybrid (c : chunk) : chunk :=
  Chunk (chunk_content c) (<["chunking_strategy" := VStr "hybrid"]> (chunk_metadata c)).

(** [chunk["metadata"]["chunking_strategy"]], when the key is present. *)
Definition strategy_tag (c : chunk) : option value :=
  chunk_metadata c !! "chunking_strategy".

(** [chunk_text] of each strategy class; the hybrid one is
    [HybridChunkingStrategy.chunk_text]. *)
Fixpoint chunk_text (s : ChunkingStrategy) (text : string)
    (md : gmap string value) : result (list chunk) :=
  match s with
  | RecursiveChunkingStrategy sp => recursive_chunk_text sp text md
  | SemanticChunkingStrategy sp => semantic_chunk_text sp text md
  | ContextualChunkingStrategy sp => contextual_chunk_text sp text md
  | HybridChunkingStrategy recursive_strategy semantic_strategy =>
      try_result
        (let text_length := Str.len text in
         chunks ← (if decide (10000 < text_length)%Z
                   then chunk_text semantic_strategy text md
                   else chunk_text recursive_strategy text md);
         mret (map retag_hybrid chunks))
        (λ _, chunk_text recursive_strategy text md)
  end.

(** What a record returned at position [i] for the document metadata [md]
    carries: its number, the length of its content, and the document's own
    keys. *)
Definition well_numbered (md : gmap string value) (i : nat) (c : chunk) : Prop :=
  chunk_metadata c !! "chunk_id" = Some (VInt (Z.of_nat i))
  ∧ chunk_metadata c !! "chunk_size" = Some (VInt (Str.len (chunk_content c)))
  ∧ ∀ k, k ∉ ["chunk_id"; "chunk_size"; "chunking_strategy"; "has_context"] →
         chunk_metadata c !! k = md !! k.

(** The constructors, [__init__] of each class. *)
Definition new_RecursiveChunkingStrategy (st : Settings) (L : Libraries)
    : result ChunkingStrategy :=
  sp ← RecursiveCharacterTextSplitter L (chunk_size st) (chunk_overlap st);
  mret (RecursiveChunkingStrategy sp).

Definition new_SemanticChunkingStrategy (st : Settings) (L : Libraries)
    : result ChunkingStrategy :=
  _ ← HuggingFaceEmbeddings L (embedding_model st);
  sp ← SemanticChunker L;
  mret (SemanticChunkingStrategy sp).

Definition new_ContextualChunkingStrategy (st : Settings) (L : Libraries)
    : result ChunkingStrategy :=
  sp ← RecursiveCharacterTextSplitter L (chunk_size st) (chunk_overlap st);
  _ ← tiktoken_get_encoding L "cl100k_base";
  mret (ContextualChunkingStrategy sp).

Definition new_HybridChunkingStrategy (st : Settings) (L : Libraries)
    : result ChunkingStrategy :=
  r ← new_RecursiveChunkingStrategy st L;
  s ← new_SemanticChunkingStrategy st L;
  mret (HybridChunkingStrategy r s).

(** [ChunkingStrategyFactory.create_strategy]: the table of classes, the
    replacement of an unknown tag, and the call of the class found. *)
Definition chunking_strategies
    : gmap string (Settings → Libraries → result ChunkingStrategy) :=
  <["hybrid" := new_HybridChunkingStrategy]>
  (<["contextual" := new_ContextualChunkingStrategy]>
   (<["semantic" := new_SemanticChunkingStrategy]>
    (<["recursive" := new_RecursiveChunkingStrategy]> ∅))).

Definition create_strategy (st : Settings) (L : Libraries)
    (strategy_type : string) : result ChunkingStrategy :=
  let strategy_type :=
    if decide (strategy_type ∈ dom chunking_strategies)
    then strategy_type else "recursive" in
  match chunking_strategies !! strategy_type with
  | Some class => class st L
  | None => Raise (KeyError strategy_type)
  end.

(** ** Vector store (core/interfaces.py, services/vector_store.py) *)

(** The [VectorStore] interface, as an implementation answers its methods. *)
Record VectorStore : Type := {
  on_add_documents : list chunk → result unit;
  on_similarity_search : string → nat → result (list snippet);
  on_delete_collection : result unit
}.

Definition add_documents (vs : VectorStore) (documents : list chunk) : Exec unit :=
  call (AddDocuments documents) (on_add_documents vs documents).

Definition similarity_search (vs : VectorStore) (query : string) (k : nat)
    : Exec (list snippet) :=
  call (SimilaritySearch query k) (on_similarity_search vs query k).

Definition delete_collection (vs : VectorStore) : Exec unit :=
  call DeleteCollection (on_delete_collection vs).

Definition embedding : Type := list float.

(** What a [ChromaVectorStore] holds: the embedding model, the client and
    the collection, as they answer. *)
Record Chroma : Type := {
  embed_documents : list string → result (list embedding);
  embed_query : string → result embedding;
  collection_add :
    list embedding → list string → list (gmap string value) → list string →
    result unit;
  collection_query :
    embedding → nat → result (list (string * gmap string value * float));
  client_delete_collection : string → result unit
}.

(** The integers the interpreter renders as text whatever its version and
    configuration: CPython from 3.11 on refuses, with a [ValueError], to
    render an integer of more than 4300 decimal digits, and [str_of_value]
    renders every integer. Strings and booleans always render. *)
Definition int_max_str_digits : Z := 4300.

Definition renders (v : value) : Prop :=
  match v with
  | VInt z => (Z.abs z < 10 ^ int_max_str_digits)%Z
  | _ => True
  end.

(** The two metadata values an id is made of render, where present. *)
Definition id_renders (doc : chunk) : Prop :=
  ∀ key v, key ∈ ["filename"; "chunk_id"] →
           chunk_metadata doc !! key = Some v → renders v.

(** [f"{doc['metadata']['filename']}_{doc['metadata']['chunk_id']}"]. *)
Definition document_id (doc : chunk) : result string :=
  match chunk_metadata doc !! "filename" with
  | None => Raise (KeyError "filename")
  | Some f =>
      match chunk_metadata doc !! "chunk_id" with
      | None => Raise (KeyError "chunk_id")
      | Some i => Ok (str_of_value f ++ "_" ++ str_of_value i)
      end
  end.

Definition ChromaVectorStore_add_documents (c : Chroma)
    (documents : list chunk) : result unit :=
  try_result
    (match documents with
     | [] => Ok ()
     | _ =>
         let texts := map chunk_content documents in
         let metadatas := map chunk_metadata documents in
         ids ← mapM document_id documents;
         embeddings ← embed_documents c texts;
         collection_add c embeddings texts metadatas ids
     end)
    (λ e, Raise e).

Definition ChromaVectorStore_similarity_search (c : Chroma)
    (query : string) (k : nat) : result (list snippet) :=
  try_result
    (query_embedding ← embed_query c query;
     results ← collection_query c query_embedding k;
     mret (map (λ '(document, md, distance),
                 Snippet document md (Some (1 - distance)%float) None None)
               results))
    (λ e, Raise e).

Definition ChromaVectorStore_delete_collection (st : Settings) (c : Chroma)
    : result unit :=
  try_result (client_delete_collection c (collection_name st)) (λ e, Raise e).

(** [ChromaVectorStore] as an implementation of [VectorStore]. *)
Definition ChromaVectorStore (st : Settings) (c : Chroma) : VectorStore := {|
  on_add_documents := ChromaVectorStore_add_documents c;
  on_similarity_search := ChromaVectorStore_similarity_search c;
  on_delete_collection := ChromaVectorStore_delete_collection st c
|}.

(** The dict of [get_collection_stats]. *)
Record Stats : Type := {
  document_count : Z;
  stats_collection_name : string
}.

(** [ChromaVectorStore.get_collection_stats], given what
    [self.collection.count()] answers. *)
Definition ChromaVectorStore_get_collection_stats (st : Settings)
    (collection_count : result Z) : result Stats :=
  try_result
    (count ← collection_count;
     mret {| document_count := count;
             stats_collection_name := collection_name st |})
    (λ _, Ok {| document_count := 0;
                stats_collection_name := collection_name st |}).

(** ** Retrieval strategies (services/retrieval_service.py) *)

Inductive RetrieverStrategy : Type :=
  | BasicRetrieverStrategy
  | HybridRetrieverStrategy (similarity_weight keyword_weight : float)
  | ContextualRetrieverStrategy.

(** [set(text.lower().split())]. *)
Definition terms (text : string) : gset string :=
  list_to_set (Str.split (Str.lower text)).

Definition basic_retrieve (query : string) (vs : VectorStore)
    : Exec (list snippet) :=
  try_except
    (results ← similarity_search vs query 5;
     mret results)
    (λ _, mret []).

(** The body of the loop of [HybridRetrieverStrategy.retrieve]. *)
Definition hybrid_annotate (similarity_weight keyword_weight : float)
    (query_terms : gset string) (doc : snippet) : result snippet :=
  let content_terms := terms (content doc) in
  let keyword_overlap := size (query_terms ∩ content_terms) in
  let similarity_score := score_or_zero (similarity_score doc) in
  keyword_score ← (if decide (query_terms ≠ ∅)
                   then int_truediv keyword_overlap (size query_terms)
                   else Ok 0%float);
  let hybrid_score :=
    (similarity_weight * similarity_score + keyword_weight * keyword_score)%float in
  mret (set_hybrid_score hybrid_score doc).

(** [HybridRetrieverStrategy.retrieve]. *)
Definition hybrid_retrieve (similarity_weight keyword_weight : float)
    (query : string) (vs : VectorStore) : Exec (list snippet) :=
  try_except
    (similarity_results ← similarity_search vs query 8;
     let query_terms := terms query in
     keyword_results ←
       lift (mapM (hybrid_annotate similarity_weight keyword_weight query_terms)
                  similarity_results);
     let keyword_results :=
       sorted_reverse (λ x, score_or_zero (hybrid_score x)) keyword_results in
     let results := take 5 keyword_results in
     mret results)
    (λ _, basic_retrieve query vs).

(** [ContextualRetrieverStrategy._expand_query]. *)
Definition interrogatives : list string := ["what"; "how"; "why"; "when"; "where"].

Definition _expand_query (query : string) : list string :=
  let base_query := query in
  let expanded := [base_query] in
  let expanded :=
    if negb (Str.endswith query "?")
    then (expanded ++ [(query ++ "?")%string])%list else expanded in
  let expanded :=
    if negb (Str.startswith_any (Str.lower query) interrogatives)
    then (expanded ++ [("what is " ++ query)%string])%list else expanded in
  expanded.

Section Contextual.
(** The interpreter's [hash] on strings. *)
Variable hash : string → Z.

(** One turn of the loop of [_deduplicate_results], on the pair
    ([unique_results], [seen_content]). *)
Definition dedup_step (acc : list snippet * gset Z) (r : snippet)
    : list snippet * gset Z :=
  let content_hash := hash (Str.take 100 (content r)) in
  if decide (content_hash ∉ acc.2)
  then ((acc.1 ++ [r])%list, {[content_hash]} ∪ acc.2)
  else acc.

(** [ContextualRetrieverStrategy._deduplicate_results]. *)
Definition _deduplicate_results (results : list snippet) : list snippet :=
  (foldl dedup_step ([], ∅) results).1.

(** What the loop of [_deduplicate_results] maintains: the hashes seen are
    those of the snippets kept, and no two kept snippets share one. *)
Definition dedup_inv (acc : list snippet * gset Z) : Prop :=
  let key d := hash (Str.take 100 (content d)) in
  NoDup (map key acc.1) ∧ ∀ h, h ∈ acc.2 ↔ h ∈ map key acc.1.

(** The body of the loop of [_rank_results]. *)
Definition rank_annotate (query_terms : gset string) (r : snippet)
    : result snippet :=
  let content_terms := terms (content r) in
  relevance ← int_truediv (size (query_terms ∩ content_terms)) (size query_terms);
  mret (set_relevance_score relevance r).

(** [ContextualRetrieverStrategy._rank_results]. *)
Definition _rank_results (results : list snippet) (original_query : string)
    : result (list snippet) :=
  let query_terms := terms original_query in
  results ← mapM (rank_annotate query_terms) results;
  mret (sorted_reverse (λ x, score_or_zero (relevance_score x)) results).

(** The loop [for expanded_query in expanded_queries], started with
    [all_results]. *)
Fixpoint search_all (vs : VectorStore) (expanded_queries : list string)
    (all_results : list snippet) : Exec (list snippet) :=
  match expanded_queries with
  | [] => mret all_results
  | expanded_query :: rest =>
      results ← similarity_search vs expanded_query 3;
      search_all vs rest (all_results ++ results)%list
  end.

(** [ContextualRetrieverStrategy.retrieve]. *)
Definition contextual_retrieve (query : string) (vs : VectorStore)
    : Exec (list snippet) :=
  try_except
    (let expanded_queries := _expand_query query in
     all_results ← search_all vs expanded_queries [];
     let unique_results := _deduplicate_results all_results in
     ranked_results ← lift (_rank_results unique_results query);
     mret (take 5 ranked_results))
    (λ _, basic_retrieve query vs).

(** [retrieve] of each strategy class. *)
Definition retrieve (s : RetrieverStrategy) (query : string)
    (vs : VectorStore) : Exec (list snippet) :=
  match s with
  | BasicRetrieverStrategy => basic_retrieve query vs
  | HybridRetrieverStrategy sw kw => hybrid_retrieve sw kw query vs
  | ContextualRetrieverStrategy => contextual_retrieve query vs
  end.
End Contextual.

(** [RetrieverFactory.create_retriever]; the hybrid class is called with its
    default weights. *)
Definition retriever_strategies : gmap string RetrieverStrategy :=
  <["contextual" := ContextualRetrieverStrategy]>
  (<["hybrid" := HybridRetrieverStrategy 0.7 0.3]>
   (<["basic" := BasicRetrieverStrategy]> ∅)).

Definition create_retriever (strategy_type : string) : result RetrieverStrategy :=
  let strategy_type :=
    if decide (strategy_type ∈ dom retriever_strategies)
    then strategy_type else "basic" in
  match retriever_strategies !! strategy_type with
  | Some class => Ok class
  | None => Raise (KeyError strategy_type)
  end.

(** ** Document processing (services/document_processor.py) *)

(** A [pathlib.Path]: [file_path.name] and [str(file_path)]. *)
Record Path : Type := {
  name : string;
  path_str : string
}.

(** How the PDF reader and the file system answer: the text of each page of
    the file, in order, and the size of the file. *)
Record FileSystem : Type := {
  pdf_page_texts : Path → result (list string);
  stat_st_size : Path → result Z
}.

Definition newline : string := String "010" "".

Module PDFProcessor.

Record t : Type := {
  chunking_strategy : ChunkingStrategy
}.

(** [PDFProcessor(chunking_strategy=tag)]. *)
Definition new (st : Settings) (L : Libraries) (tag : string) : result t :=
  s ← create_strategy st L tag;
  mret {| chunking_strategy := s |}.

(** The page marker and text kept for page [page_num], nothing for a page
    that is blank once stripped. *)
Definition page_entry (page_num : nat) (page_text : string) : list string :=
  if Str.is_empty (Str.strip page_text) then []
  else [newline ++ "--- Page " ++ Str.of_nat (page_num + 1) ++ " ---"
        ++ newline ++ page_text].

Definition extract_text (fs : FileSystem) (file_path : Path) : result string :=
  try_result
    (pages ← pdf_page_texts fs file_path;
     let text_content := concat (imap page_entry pages) in
     let full_text := Str.join newline text_content in
     mret full_text)
    (λ e, Raise e).

Definition chunk_document (self : t) (text : string)
    (md : gmap string value) : result (list chunk) :=
  try_result (chunk_text (chunking_strategy self) text md) (λ e, Raise e).

(** The metadata dict built for a document. *)
Definition document_metadata (file_path : Path) (file_size : Z)
    : gmap string value :=
  <["source_type" := VStr "pdf"]>
  (<["file_size" := VInt file_size]>
   (<["file_path" := VStr (path_str file_path)]>
    (<["filename" := VStr (name file_path)]> ∅))).

Definition process_pdf (fs : FileSystem) (self : t) (file_path : Path)
    : result (list chunk) :=
  try_result
    (text ← extract_text fs file_path;
     file_size ← stat_st_size fs file_path;
     let md := document_metadata file_path file_size in
     chunks ← chunk_document self text md;
     mret chunks)
    (λ e, Raise e).

End PDFProcessor.

(** [DocumentProcessorFactory.create_processor(file_type, **kwargs)], the
    keyword arguments being the optional [chunking_strategy] that
    [PDFProcessor] accepts ("hybrid" when absent). The [ValueError] raised
    for a type outside the table is kept by its message. *)
Definition processors
    : gmap string (Settings → Libraries → string → result PDFProcessor.t) :=
  {["pdf" := PDFProcessor.new]}.

Definition create_processor (st : Settings) (L : Libraries)
    (file_type : string) (chunking_strategy : option string)
    : result PDFProcessor.t :=
  match processors !! file_type with
  | None => Raise (LibraryError ("Unsupported file type: " ++ file_type))
  | Some class => class st L (default "hybrid" chunking_strategy)
  end.

(** ** Orchestrator (main.py) *)

(** The [LLMProvider] interface: the fragments [generate_response] yields
    for a question and a context, and the exception that ends the stream,
    if one does. *)
Record LLMProvider : Type := {
  on_generate_response : string → string → list string * option exn
}.

(** Everything outside the agent: configuration, libraries, files, the
    services its constructor builds, and two built-ins of the interpreter,
    [hash] on strings and the rendering of a float by [:.3f]. *)
Record World : Type := {
  settings : Settings;
  libraries : Libraries;
  files : FileSystem;
  new_ChromaVectorStore : result Chroma;
  new_GroqLLMService : result LLMProvider;
  hash : string → Z;
  format_3f : float → string
}.

Module PDFQAAgent.

Record t : Type := {
  pdf_processor : PDFProcessor.t;
  vector_store : Chroma;
  llm_service : LLMProvider;
  retriever : RetrieverStrategy
}.

(** [self.vector_store = v]. *)
Definition set_vector_store (v : Chroma) (self : t) : t := {|
  pdf_processor := pdf_processor self;
  vector_store := v;
  llm_service := llm_service self;
  retriever := retriever self
|}.

(** [PDFQAAgent(chunking_strategy, retrieval_strategy)]. *)
Definition new (w : World) (chunking_strategy retrieval_strategy : string)
    : result t :=
  try_result
    (p ← PDFProcessor.new (settings w) (libraries w) chunking_strategy;
     v ← new_ChromaVectorStore w;
     l ← new_GroqLLMService w;
     r ← create_retriever retrieval_strategy;
     mret {| pdf_processor := p; vector_store := v;
             llm_service := l; retriever := r |})
    (λ e, Raise e).

(** The agent's store seen through the [VectorStore] interface. *)
Definition store (w : World) (self : t) : VectorStore :=
  ChromaVectorStore (settings w) (vector_store self).

Definition process_pdf (w : World) (self : t) (file_path : Path) : Exec bool :=
  try_except
    (chunks ← lift (PDFProcessor.process_pdf (files w) (pdf_processor self) file_path);
     match chunks with
     | [] => mret false
     | _ =>
         _ ← add_documents (store w self) chunks;
         mret true
     end)
    (λ _, mret false).

Definition no_information : string :=
  "I couldn't find any relevant information in the knowledge base to answer your question.".

Definition error_text (e : exn) : string :=
  "An error occurred while processing your question: " ++ exn_message e.

(** One block of [_prepare_context], for the [i]-th snippet counted from 1. *)
Definition context_part (w : World) (i : nat) (doc : snippet) : string :=
  newline ++ "Document " ++ Str.of_nat i ++ ":" ++ newline
  ++ "Source: "
  ++ str_of_value (default (VStr "Unknown") (metadata doc !! "filename"))
  ++ newline
  ++ "Relevance Score: " ++ format_3f w (score_or_zero (similarity_score doc))
  ++ newline
  ++ "Content: " ++ content doc ++ newline
  ++ "---" ++ newline.

Definition _prepare_context (w : World) (relevant_docs : list snippet) : string :=
  Str.join newline (imap (λ i, context_part w (i + 1)) relevant_docs).

(** [async for chunk in self.llm_service.generate_response(q, context)],
    collecting the fragments. *)
Definition collect_response (llm : LLMProvider) (question context : string)
    : Exec (list string) :=
  let '(fragments, failure) := on_generate_response llm question context in
  call (GenerateResponse question context)
       (match failure with None => Ok fragments | Some e => Raise e end).

Definition ask_question (w : World) (self : t) (question : string) : Exec string :=
  try_except
    (relevant_docs ← retrieve (hash w) (retriever self) question (store w self);
     match relevant_docs with
     | [] => mret no_information
     | _ =>
         let context := _prepare_context w relevant_docs in
         response_parts ← collect_response (llm_service self) question context;
         let full_response := Str.join "" response_parts in
         mret full_response
     end)
    (λ e, mret (error_text e)).

(** [ask_question_stream]: the calls made and the fragments yielded, in
    order, when the generator is read to its end. *)
Definition ask_question_stream (w : World) (self : t) (question : string)
    : list event * list string :=
  match retrieve (hash w) (retriever self) question (store w self) with
  | (tr, Raise e) => (tr, [error_text e])
  | (tr, Ok []) => (tr, [no_information])
  | (tr, Ok relevant_docs) =>
      let context := _prepare_context w relevant_docs in
      let '(fragments, failure) :=
        on_generate_response (llm_service self) question context in
      ((tr ++ [GenerateResponse question context])%list,
       (fragments ++ match failure with
                     | Some e => [error_text e]
                     | None => []
                     end)%list)
  end.

(** [clear_knowledge_base]: the calls made, the boolean returned, and the
    agent afterwards. *)
Definition clear_knowledge_base (w : World) (self : t)
    : list event * bool * t :=
  match delete_collection (store w self) with
  | (tr, Raise _) => (tr, false, self)
  | (tr, Ok _) =>
      match call NewVectorStore (new_ChromaVectorStore w) with
      | (tr', Raise _) => ((tr ++ tr')%list, false, self)
      | (tr', Ok v) => ((tr ++ tr')%list, true, set_vector_store v self)
      end
  end.

(** [get_knowledge_base_stats], given what the collection's [count()]
    answers. *)
Definition get_knowledge_base_stats (w : World) (self : t)
    (collection_count : result Z) : result Stats :=
  try_result
    (ChromaVectorStore_get_collection_stats (settings w) collection_count)
    (λ _, Ok {| document_count := 0; stats_collection_name := "unknown" |}).

End PDFQAAgent.

(** ** Language model service (services/llm_service.py) *)

Inductive message : Type :=
  | SystemMessage (content : string)
  | HumanMessage (content : string).

(** How [self.llm.astream(messages)] answers: for each chunk of the stream
    its [content] attribute, [None] for a chunk that has none, and the
    exception that ends the stream, if one does. *)
Definition chat_stream : Type := list message → list (option string) * option exn.

Module GroqLLMService.

Definition _create_system_prompt : string :=
  "You are an intelligent PDF Q/A assistant. Your role is to answer questions based on the provided PDF document context.

Guidelines:
1. Answer questions accurately based ONLY on the provided context
2. If the answer is not in the context, clearly state that you don't have enough information
3. Provide detailed, well-structured answers when possible
4. Include relevant quotes from the source material when appropriate
5. If asked about specific pages or sections, reference them in your answer
6. Be concise but comprehensive in your responses
7. If the question is ambiguous, ask for clarification

Remember: Only use information from the provided context. Do not make up information or use external knowledge.".

Definition _create_user_prompt (question context : string) : string :=
  "Context from PDF documents:" ++ newline ++ context ++ newline ++ newline
  ++ "Question: " ++ question ++ newline ++ newline
  ++ "Please provide a detailed answer based on the context above.".

(** [hasattr(chunk, "content") and chunk.content]: the content, when the
    chunk has one that is not empty. *)
Definition spoken (chunk : option string) : option string :=
  match chunk with
  | Some c => if Str.is_empty c then None else Some c
  | None => None
  end.

(** [generate_response]: the fragments yielded when the generator is read to
    its end; it catches every exception of the stream. *)
Definition generate_response (astream : chat_stream) (prompt context : string)
    : list string :=
  let system_prompt := _create_system_prompt in
  let user_prompt := _create_user_prompt prompt context in
  let messages := [SystemMessage system_prompt; HumanMessage user_prompt] in
  let '(chunks, failure) := astream messages in
  (omap spoken chunks
   ++ match failure with
      | Some e => [("Error: " ++ exn_message e)%string]
      | None => []
      end)%list.




End GroqLLMService.

(** ** What the specification says, in its own words

    Definitions written from the specification's sentences, to be compared
    with the code's. *)
Module Spec.

(** "distinct lowercased whitespace-split terms". *)
Definition distinct_terms (text : string) : list string :=
  remove_dups (Str.split (Str.lower text)).

(** "the number of distinct query terms that occur among the candidate
    content's distinct terms". *)
Definition overlap (query text : string) : nat :=
  length (filter (λ t, t ∈ distinct_terms text) (distinct_terms query)).

(** "divided by the number of distinct query terms (with keyword_score = 0
    when the query-term set is empty)". *)
Definition keyword_score (query text : string) : float :=
  match distinct_terms query with
  | [] => 0%float
  | q => (float_of_nat (overlap query text) / float_of_nat (length q))%float
  end.

(** "hybrid_score = 0.7 * similarity_score + 0.3 * keyword_score". *)
Definition hybrid_score (query : string) (doc : snippet) : float :=
  (0.7 * score_or_zero (similarity_score doc)
   + 0.3 * keyword_score query (content doc))%float.

(** "keyword-overlap ratio computed against the original query". *)
Definition overlap_ratio (query : string) (doc : snippet) : float :=
  (float_of_nat (overlap query (content doc))
   / float_of_nat (length (distinct_terms query)))%float.

(** "content strings agree on their first 100 characters". *)
Definition prefix_100 (doc : snippet) : string := Str.take 100 (content doc).

End Spec.

(** ** Fixtures: small collaborators and inputs on which the definitions run *)
Module Fixtures.

Definition st : Settings := {|
  chunk_size := 1000;
  chunk_overlap := 200;
  embedding_model := "all-MiniLM-L6-v2";
  collection_name := "pdf_documents"
|}.

(** A splitter that cuts nothing. *)
Definition whole : splitter := λ text, Ok [text].

(** A splitter whose library fails. *)
Definition failing : splitter := λ _, Raise (LibraryError "embedding failed").

(** Libraries whose constructors all succeed. *)
Definition libs : Libraries := {|
  RecursiveCharacterTextSplitter := λ _ _, Ok whole;
  HuggingFaceEmbeddings := λ _, Ok ();
  SemanticChunker := Ok whole;
  tiktoken_get_encoding := λ _, Ok ()
|}.

(** Libraries in which the embedding model cannot be loaded. *)
Definition libs_no_model : Libraries := {|
  RecursiveCharacterTextSplitter := λ _ _, Ok whole;
  HuggingFaceEmbeddings := λ _, Raise (LibraryError "model not found");
  SemanticChunker := Ok whole;
  tiktoken_get_encoding := λ _, Ok ()
|}.

Fixpoint replicate_char (n : nat) (c : ascii) : string :=
  match n with O => EmptyString | S n' => String c (replicate_char n' c) end.

(** A text of 10001 characters. *)
Definition long_text : string := replicate_char (Z.to_nat 10001) "a".

Definition md : gmap string value := {["filename" := VStr "a.pdf"]}.

Definition doc (c : string) (s : float) : snippet := Snippet c ∅ (Some s) None None.

Definition corpus : list snippet :=
  [doc "alpha beta" 0.5; doc "gamma" 0.9; doc "alpha" 0.5; doc "beta alpha" 0.5].

(** A store that answers every query with the first [k] snippets of
    [docs]. *)
Definition store_of (docs : list snippet) : VectorStore := {|
  on_add_documents := λ _, Ok ();
  on_similarity_search := λ _ k, Ok (take k docs);
  on_delete_collection := Ok ()
|}.

(** A store that refuses to return more than [n] snippets at once: it
    answers a search for the top [k] with the first [k] snippets of [docs]
    when [k] is at most [n], and fails otherwise. *)
Definition store_at_most (n : nat) (docs : list snippet) : VectorStore := {|
  on_add_documents := λ _, Ok ();
  on_similarity_search := λ _ k,
    if Nat.leb k n then Ok (take k docs)
    else Raise (LibraryError "n_results exceeds the collection");
  on_delete_collection := Ok ()
|}.

(** A store that knows the query [q] only: it answers it with the first [k]
    snippets of [docs] and fails on every other query. *)
Definition store_only (q : string) (docs : list snippet) : VectorStore := {|
  on_add_documents := λ _, Ok ();
  on_similarity_search := λ query k,
    if String.eqb query q then Ok (take k docs)
    else Raise (LibraryError "unknown query");
  on_delete_collection := Ok ()
|}.

(** A database that holds [rows] and answers the first [k] of them. *)
Definition chroma_of (rows : list (string * gmap string value * float)) : Chroma := {|
  embed_documents := λ texts, Ok (map (λ _, [0%float]) texts);
  embed_query := λ _, Ok [0%float];
  collection_add := λ _ _ _ _, Ok ();
  collection_query := λ _ k, Ok (take k rows);
  client_delete_collection := λ _, Ok ()
|}.

(** A database whose embedding model is out of reach. *)
Definition chroma_down : Chroma := {|
  embed_documents := λ _, Raise (LibraryError "model unavailable");
  embed_query := λ _, Raise (LibraryError "model unavailable");
  collection_add := λ _ _ _ _, Ok ();
  collection_query := λ _ _, Ok [];
  client_delete_collection := λ _, Ok ()
|}.

(** A database whose collection cannot be deleted. *)
Definition chroma_locked : Chroma := {|
  embed_documents := λ texts, Ok (map (λ _, [0%float]) texts);
  embed_query := λ _, Ok [0%float];
  collection_add := λ _ _ _ _, Ok ();
  collection_query := λ _ _, Ok [];
  client_delete_collection := λ _, Raise (LibraryError "locked")
|}.

Definition llm : LLMProvider := {|
  on_generate_response := λ _ _, (["An"; "swer"], None)
|}.


(** A model that streams two chunks around an empty one. *)
Definition astream_ok : chat_stream :=
  λ _, ([Some "An"; Some ""; Some "swer "], None).


Definition fs : FileSystem := {|
  pdf_page_texts := λ _, Ok ["first page"; "  "; "third page"];
  stat_st_size := λ _, Ok 2048%Z
|}.

Definition fs_unreadable : FileSystem := {|
  pdf_page_texts := λ _, Raise (LibraryError "not a PDF");
  stat_st_size := λ _, Ok 0%Z
|}.

Definition world (f : FileSystem) : World := {|
  settings := st;
  libraries := libs;
  files := f;
  new_ChromaVectorStore := Ok (chroma_of []);
  new_GroqLLMService := Ok llm;
  hash := λ s, Z.of_nat (String.length s);
  format_3f := λ _, "0.000"
|}.

Definition file : Path := {| name := "a.pdf"; path_str := "/tmp/a.pdf" |}.

(** An agent over the database [c] that asks the provider [l]. *)
Definition agent_with (c : Chroma) (l : LLMProvider) : PDFQAAgent.t := {|
  PDFQAAgent.pdf_processor :=
    {| PDFProcessor.chunking_strategy := RecursiveChunkingStrategy whole |};
  PDFQAAgent.vector_store := c;
  PDFQAAgent.llm_service := l;
  PDFQAAgent.retriever := BasicRetrieverStrategy
|}.

Definition agent (c : Chroma) (r : RetrieverStrategy) : PDFQAAgent.t := {|
  PDFQAAgent.pdf_processor :=
    {| PDFProcessor.chunking_strategy :=
         HybridChunkingStrategy (RecursiveChunkingStrategy whole)
                                (SemanticChunkingStrategy whole) |};
  PDFQAAgent.vector_store := c;
  PDFQAAgent.llm_service := llm;
  PDFQAAgent.retriever := r
|}.

End Fixtures.

(** * Properties *)

(** ** Outcomes and traces *)

Lemma mapM_Ok {A B} (f : A → result B) (g : A → B) (l : list A) :
  (∀ x, x ∈ l → f x = Ok (g x)) → mapM f l = Ok (map g l).
Proof.
  induction l as [|x l IH]; intros Hf; simpl; [done|].
  rewrite (Hf x) by left. cbn.
  rewrite IH; [done|]. intros y Hy. apply Hf. by right.
Qed.

Lemma mapM_Raise_head {A B} (f : A → result B) (x : A) (l : list A) (e : exn) :
  f x = Raise e → mapM f (x :: l) = Raise e.
Proof. intros Hx. simpl. by rewrite Hx. Qed.

(** Lays a computation of [Exec] open as a pair of calls and outcome. *)
Ltac run_exec :=
  unfold mbind, mret, Exec_bind, Exec_ret, try_except, lift, call,
    trace, outcome in *.

(** ** Sorting *)

Section SortingFacts.
Context {A : Type} (key : A → float).

Lemma insert_desc_perm (x : A) (l : list A) : insert_desc key x l ≡ₚ x :: l.
Proof.
  induction l as [|y l IH]; simpl; [done|].
  destruct (key x <? key y)%float; [|done].
  rewrite IH. apply perm_swap.
Qed.

Lemma sorted_reverse_perm (l : list A) : sorted_reverse key l ≡ₚ l.
Proof.
  induction l as [|x l IH]; simpl; [done|].
  unfold sorted_reverse in *. simpl. by rewrite insert_desc_perm, IH.
Qed.

Lemma insert_desc_descending (ks : list float) (x : A) (l : list A) :
  lt_strict_weak_on ks → key x ∈ ks → Forall (λ y, key y ∈ ks) l →
  descending key l → descending key (insert_desc key x l).
Proof.
  intros Hsw Hx Hl Hd. induction Hd as [|y l Hd IH Hy]; simpl.
  - repeat constructor.
  - apply Forall_cons in Hl as [Hyk Hl].
    destruct (key x <? key y)%float eqn:Hlt.
    + constructor; [by apply IH|].
      rewrite insert_desc_perm. constructor; [|done].
      by apply (Hsw (key x) (key y) (key x)).
    + constructor; [by constructor|].
      constructor; [done|].
      rewrite Forall_forall in Hy, Hl. apply Forall_forall. intros z Hz.
      apply (Hsw (key x) (key y) (key z)); auto.
Qed.

Lemma sorted_reverse_descending (l : list A) :
  lt_strict_weak_on (map key l) → descending key (sorted_reverse key l).
Proof.
  intros Hsw.
  assert (Hall : ∀ l', l' ⊆ l → descending key (sorted_reverse key l')).
  { induction l' as [|x l' IH]; intros Hsub.
    - constructor.
    - unfold sorted_reverse. simpl.
      apply (insert_desc_descending (map key l)); [done| | |].
      + apply list_elem_of_fmap. exists x. split; [done|]. apply Hsub. by left.
      + apply Forall_forall. intros y Hy.
        apply list_elem_of_fmap. exists y. split; [done|].
        apply Hsub. right.
        by rewrite <- (sorted_reverse_perm l').
      + apply IH. intros y Hy. apply Hsub. by right. }
  by apply Hall.
Qed.
End SortingFacts.

(** *** The order of binary64 values *)

Lemma lex_compare_Lt (a b : Z * Z * Z) : lex_compare a b = Lt ↔ lex_lt a b.
Proof.
  unfold lex_compare, lex_lt.
  destruct (Z.compare_spec a.1.1 b.1.1), (Z.compare_spec a.1.2 b.1.2),
    (Z.compare_spec a.2 b.2);
    split; intros; try discriminate; try reflexivity; lia.
Qed.

Lemma SFcompare_key (a b : spec_float) :
  a ≠ S754_nan → b ≠ S754_nan →
  SFcompare a b = Some (lex_compare (sf_key a) (sf_key b)).
Proof.
  intros Ha Hb.
  destruct a as [[]|[]| |[] m1 e1], b as [[]|[]| |[] m2 e2]; try done.
  unfold lex_compare. simpl. rewrite Z.compare_opp, (Z.compare_antisym e1 e2).
  by destruct (e1 ?= e2)%Z.
Qed.

Lemma not_nan_Prim2SF (x : float) :
  PrimFloat.is_nan x = false → Prim2SF x ≠ S754_nan.
Proof.
  unfold PrimFloat.is_nan. rewrite FloatAxioms.eqb_spec.
  intros H Hn. by rewrite Hn in H.
Qed.

Lemma ltb_lex (x y : float) :
  PrimFloat.is_nan x = false → PrimFloat.is_nan y = false →
  (x <? y)%float = true ↔ lex_lt (sf_key (Prim2SF x)) (sf_key (Prim2SF y)).
Proof.
  intros Hx%not_nan_Prim2SF Hy%not_nan_Prim2SF.
  rewrite FloatAxioms.ltb_spec. unfold SFltb. rewrite SFcompare_key by done.
  rewrite <- lex_compare_Lt. by destruct (lex_compare _ _).
Qed.

(** Away from NaN, Python's [<] on floats is a strict weak order. *)
Lemma no_nan_strict_weak (ks : list float) : no_nan ks → lt_strict_weak_on ks.
Proof.
  unfold no_nan. rewrite Forall_forall. intros Hn x y z Hx Hy Hz.
  pose proof (ltb_lex x y (Hn x Hx) (Hn y Hy)) as Hxy.
  pose proof (ltb_lex y x (Hn y Hy) (Hn x Hx)) as Hyx.
  pose proof (ltb_lex y z (Hn y Hy) (Hn z Hz)) as Hyz.
  pose proof (ltb_lex x z (Hn x Hx) (Hn z Hz)) as Hxz.
  unfold lex_lt in *. split.
  - intros H. apply Hxy in H. apply not_true_is_false. rewrite Hyx. lia.
  - intros H1%not_true_iff_false H2%not_true_iff_false.
    apply not_true_is_false. rewrite Hxy in H1. rewrite Hyz in H2.
    rewrite Hxz. lia.
Qed.

(** Discharges [no_nan] on a list of float literals. *)
Ltac no_nan_by_computation :=
  unfold no_nan;
  repeat first [apply Forall_nil_2 | apply Forall_cons_2; [vm_compute; reflexivity|]].

(** ** Term sets: the code's sets against the specification's lists *)

Lemma size_list_to_set_remove_dups (l : list string) :
  size (list_to_set l : gset string) = length (remove_dups l).
Proof.
  rewrite <- (size_list_to_set (C := gset string) _ (NoDup_remove_dups l)).
  f_equal. apply set_eq. intros t.
  by rewrite !elem_of_list_to_set, elem_of_remove_dups.
Qed.

Lemma size_terms (text : string) :
  size (terms text) = length (Spec.distinct_terms text).
Proof. apply size_list_to_set_remove_dups. Qed.

Lemma terms_empty_iff (text : string) :
  terms text = ∅ ↔ Spec.distinct_terms text = [].
Proof.
  rewrite <- (leibniz_equiv_iff (terms text) ∅), <- size_empty_iff, size_terms.
  apply length_zero_iff_nil.
Qed.

Lemma size_terms_inter (query text : string) :
  size (terms query ∩ terms text) = Spec.overlap query text.
Proof.
  unfold Spec.overlap, terms, Spec.distinct_terms.
  set (q := Str.split (Str.lower query)). set (c := Str.split (Str.lower text)).
  assert (Hnd : NoDup (filter (λ t, t ∈ remove_dups c) (remove_dups q))).
  { apply NoDup_filter, NoDup_remove_dups. }
  rewrite <- (size_list_to_set (C := gset string) _ Hnd).
  f_equal. apply set_eq. intros t.
  rewrite elem_of_intersection, !elem_of_list_to_set, list_elem_of_filter.
  rewrite !elem_of_remove_dups. tauto.
Qed.

(** The guarded division of the hybrid strategy never raises and computes
    the specification's keyword score. *)
Lemma hybrid_annotate_spec (query : string) (doc : snippet) :
  hybrid_annotate 0.7 0.3 (terms query) doc
  = Ok (set_hybrid_score (Spec.hybrid_score query doc) doc).
Proof.
  unfold hybrid_annotate, Spec.hybrid_score, Spec.keyword_score.
  rewrite size_terms_inter, size_terms.
  destruct (decide (terms query ≠ ∅)) as [Hne|He].
  - rewrite terms_empty_iff in Hne.
    destruct (Spec.distinct_terms query) as [|t q] eqn:Hq; [done|].
    reflexivity.
  - apply dec_stable in He. rewrite terms_empty_iff in He. by rewrite He.
Qed.

(** The unguarded division of the contextual strategy. *)
Lemma rank_annotate_spec (query : string) (doc : snippet) :
  terms query ≠ ∅ →
  rank_annotate (terms query) doc
  = Ok (set_relevance_score (Spec.overlap_ratio query doc) doc).
Proof.
  intros Hne. unfold rank_annotate, Spec.overlap_ratio.
  rewrite size_terms_inter, size_terms.
  rewrite terms_empty_iff in Hne.
  destruct (Spec.distinct_terms query) as [|t q] eqn:Hq; [done|].
  reflexivity.
Qed.

Lemma rank_annotate_empty (query : string) (doc : snippet) :
  terms query = ∅ → rank_annotate (terms query) doc = Raise ZeroDivisionError.
Proof.
  intros He. unfold rank_annotate. rewrite He, size_empty. reflexivity.
Qed.

(** A text made of white space only has no terms. *)
Lemma split_from_blank (s : string) :
  Forall (λ c, Str.isspace c = true) (list_ascii_of_string s) →
  Str.split_from "" s = [].
Proof.
  induction s as [|c s IH]; simpl; intros H; [done|].
  apply Forall_cons in H as [Hc Hs]. rewrite Hc. simpl. by apply IH.
Qed.

Lemma lower_char_isspace (c : ascii) :
  Str.isspace c = true → Str.lower_char c = c.
Proof.
  destruct c as [[] [] [] [] [] [] [] []]; vm_compute; congruence.
Qed.

Lemma terms_blank (s : string) :
  Forall (λ c, Str.isspace c = true) (list_ascii_of_string s) → terms s = ∅.
Proof.
  intros H. unfold terms, Str.split. rewrite split_from_blank; [done|].
  induction s as [|c s IH]; simpl in *; [done|].
  apply Forall_cons in H as [Hc Hs]. constructor; [|by apply IH].
  by rewrite lower_char_isspace.
Qed.

(** ** Hybrid chunking *)

Lemma strategy_tag_retag (c : chunk) :
  strategy_tag (retag_hybrid c) = Some (VStr "hybrid").
Proof. unfold strategy_tag, retag_hybrid. simpl. apply lookup_insert_eq. Qed.

Lemma strategy_tag_tagged (tag : string) (md : gmap string value) (i : nat) (c : string) :
  strategy_tag (tagged_chunk tag md i c) = Some (VStr tag).
Proof. unfold strategy_tag, tagged_chunk. simpl. apply lookup_insert_eq. Qed.

Lemma hybrid_chunk_text_unfold (r s : ChunkingStrategy) (text : string)
    (md : gmap string value) :
  chunk_text (HybridChunkingStrategy r s) text md
  = try_result
      (chunks ← (if decide (10000 < Str.len text)%Z
                 then chunk_text s text md else chunk_text r text md);
       mret (map retag_hybrid chunks))
      (λ _, chunk_text r text md).
Proof. reflexivity. Qed.

(** Whenever the delegate chosen by the threshold succeeds, every chunk
    returned carries the tag "hybrid". *)
Lemma hybrid_direct_path_tags (r s : ChunkingStrategy) (text : string)
    (md : gmap string value) (chunks : list chunk) :
  (if decide (10000 < Str.len text)%Z
   then chunk_text s text md else chunk_text r text md) = Ok chunks →
  ∃ out, chunk_text (HybridChunkingStrategy r s) text md = Ok out
         ∧ Forall (λ c, strategy_tag c = Some (VStr "hybrid")) out.
Proof.
  intros H. exists (map retag_hybrid chunks). split.
  - rewrite hybrid_chunk_text_unfold, H. reflexivity.
  - apply Forall_forall. intros c Hc.
    apply list_elem_of_fmap in Hc as (c0 & -> & _). apply strategy_tag_retag.
Qed.

(** C1 (the code departs from the claim). When the text is longer than
    10000 characters, the semantic delegate raises and the recursive
    splitter succeeds, [HybridChunkingStrategy.chunk_text] returns the
    recursive strategy's chunks untouched: each of them is tagged
    "recursive", not "hybrid". *)
Theorem hybrid_fallback_keeps_recursive_tag (text_splitter : splitter)
    (s : ChunkingStrategy) (text : string) (md : gmap string value)
    (e : exn) (pieces : list string) :
  (10000 < Str.len text)%Z →
  chunk_text s text md = Raise e →
  text_splitter text = Ok pieces →
  ∃ out,
    chunk_text (HybridChunkingStrategy (RecursiveChunkingStrategy text_splitter) s) text md
    = Ok out
    ∧ length out = length pieces
    ∧ Forall (λ c, strategy_tag c = Some (VStr "recursive")) out.
Proof.
  intros Hlong Hs Hr.
  exists (imap (tagged_chunk "recursive" md) pieces).
  rewrite hybrid_chunk_text_unfold.
  destruct (decide (10000 < Str.len text)%Z) as [_|Hn]; [|done].
  rewrite Hs. simpl. unfold recursive_chunk_text. rewrite Hr. simpl.
  split; [done|]. split; [by rewrite length_imap|].
  apply Forall_forall. intros c Hc.
  apply list_elem_of_lookup in Hc as [i Hi].
  rewrite list_lookup_imap in Hi.
  destruct (pieces !! i) as [p|]; simpl in Hi; [|done].
  injection Hi as <-. apply strategy_tag_tagged.
Qed.

Lemma hybrid_fallback_keeps_recursive_tag_witness :
  ∃ out,
    chunk_text (HybridChunkingStrategy (RecursiveChunkingStrategy Fixtures.whole)
                  (SemanticChunkingStrategy Fixtures.failing))
               Fixtures.long_text Fixtures.md
    = Ok out
    ∧ length out = 1
    ∧ Forall (λ c, strategy_tag c = Some (VStr "recursive")) out.
Proof.
  apply (hybrid_fallback_keeps_recursive_tag Fixtures.whole
           (SemanticChunkingStrategy Fixtures.failing) Fixtures.long_text
           Fixtures.md (LibraryError "embedding failed") [Fixtures.long_text]).
  - vm_compute. reflexivity.
  - reflexivity.
  - reflexivity.
Defined.

(** C4. [HybridChunkingStrategy.chunk_text] hands the text to the semantic
    strategy exactly when it is longer than 10000 characters and to the
    recursive strategy otherwise, returning the delegate's chunks with the
    tag rewritten; if the chosen delegate raises, it returns whatever the
    recursive strategy returns. *)
Theorem hybrid_routing (r s : ChunkingStrategy) (text : string)
    (md : gmap string value) :
  ((10000 < Str.len text)%Z →
     (∀ chunks, chunk_text s text md = Ok chunks →
        chunk_text (HybridChunkingStrategy r s) text md
        = Ok (map retag_hybrid chunks))
     ∧ (∀ e, chunk_text s text md = Raise e →
        chunk_text (HybridChunkingStrategy r s) text md = chunk_text r text md))
  ∧ ((Str.len text ≤ 10000)%Z →
     (∀ chunks, chunk_text r text md = Ok chunks →
        chunk_text (HybridChunkingStrategy r s) text md
        = Ok (map retag_hybrid chunks))
     ∧ (∀ e, chunk_text r text md = Raise e →
        chunk_text (HybridChunkingStrategy r s) text md = chunk_text r text md)).
Proof.
  rewrite hybrid_chunk_text_unfold.
  destruct (decide (10000 < Str.len text)%Z) as [Hl|Hl].
  - split; [intros _|lia].
    split; [intros chunks Hc|intros e Hc]; rewrite Hc; reflexivity.
  - split; [lia|intros _].
    split; [intros chunks Hc|intros e Hc]; rewrite Hc; reflexivity.
Qed.

Lemma hybrid_routing_witness :
  chunk_text (HybridChunkingStrategy (RecursiveChunkingStrategy Fixtures.whole)
                (SemanticChunkingStrategy Fixtures.whole))
             Fixtures.long_text Fixtures.md
  = Ok (map retag_hybrid [tagged_chunk "semantic" Fixtures.md 0 Fixtures.long_text])
  ∧ chunk_text (HybridChunkingStrategy (RecursiveChunkingStrategy Fixtures.whole)
                  (SemanticChunkingStrategy Fixtures.failing))
               "short" Fixtures.md
    = Ok (map retag_hybrid [tagged_chunk "recursive" Fixtures.md 0 "short"]).
Proof.
  split.
  - refine (proj1 (proj1 (hybrid_routing _ _ Fixtures.long_text _) _) _ _).
    + vm_compute. reflexivity.
    + reflexivity.
  - refine (proj1 (proj2 (hybrid_routing _ _ "short" _) _) _ _).
    + vm_compute. discriminate.
    + reflexivity.
Defined.

(** ** Query expansion *)

Lemma append_cons (c : ascii) (s1 s2 : string) :
  String c s1 ++ s2 = String c (s1 ++ s2).
Proof. reflexivity. Qed.

Lemma length_append (s1 s2 : string) :
  String.length (s1 ++ s2) = String.length s1 + String.length s2.
Proof.
  induction s1 as [|c s1 IH]; [done|].
  rewrite append_cons. simpl. by rewrite IH.
Qed.

Lemma startswith_spec (s p : string) :
  Str.startswith s p = true ↔ ∃ rest, s = p ++ rest.
Proof.
  unfold Str.startswith. revert s.
  induction p as [|c p IH]; intros s; simpl.
  - destruct s; (split; [intros _; by eexists|done]).
  - destruct s as [|d s]; simpl.
    + split; [done|intros [rest Hr]; discriminate].
    + destruct (ascii_dec c d) as [->|Hcd].
      * rewrite IH. split; intros [rest Hr]; exists rest;
          rewrite append_cons in *; congruence.
      * split; [done|intros [rest Hr]; rewrite append_cons in Hr; congruence].
Qed.

Lemma endswith_spec (s p : string) :
  Str.endswith s p = true ↔ ∃ pre, s = pre ++ p.
Proof.
  induction s as [|c s IH].
  - change (Str.endswith "" p) with (String.eqb "" p || false).
    rewrite orb_false_r, String.eqb_eq. split.
    + intros <-. by exists "".
    + intros [pre Hp]. destruct pre; [done|discriminate].
  - change (Str.endswith (String c s) p)
      with (String.eqb (String c s) p || Str.endswith s p).
    rewrite orb_true_iff, String.eqb_eq, IH. split.
    + intros [<-|[pre ->]]; [by exists ""|by exists (String c pre)].
    + intros [pre Hp]. destruct pre as [|d pre]; [by left|].
      right. exists pre. rewrite append_cons in Hp. congruence.
Qed.

Lemma startswith_any_spec (s : string) (ps : list string) :
  Str.startswith_any s ps = true ↔ ∃ p rest, p ∈ ps ∧ s = p ++ rest.
Proof.
  unfold Str.startswith_any. rewrite existsb_exists. split.
  - intros (p & Hin & Hp). apply startswith_spec in Hp as [rest ->].
    exists p, rest. by rewrite list_elem_of_In.
  - intros (p & rest & Hin & ->). exists p. rewrite <- list_elem_of_In.
    split; [done|]. apply startswith_spec. by exists rest.
Qed.

Lemma question_variant_fresh (q : string) : q ++ "?" ≠ q.
Proof.
  intros H. apply (f_equal String.length) in H.
  rewrite length_append in H. simpl in H. lia.
Qed.

Lemma what_is_variant_fresh (q : string) : "what is " ++ q ≠ q.
Proof.
  intros H. apply (f_equal String.length) in H.
  rewrite length_append in H. simpl in H. lia.
Qed.

Lemma variants_differ (q : string) : "what is " ++ q ≠ q ++ "?".
Proof.
  intros H. apply (f_equal String.length) in H.
  rewrite !length_append in H. simpl in H. lia.
Qed.

(** C8, as the claim states it, fails: the test is not on a first word and
    not on the interrogative words. A query that starts with the
    interrogative word who still gets its "what is" variant, and a query
    whose first word, Howard, is no interrogative word gets none, because
    its lowercased text begins with the letters how. *)
Lemma expand_query_tests_prefixes_not_words :
  _expand_query "who is it" = ["who is it"; "who is it?"; "what is who is it"]
  ∧ _expand_query "Howard Carter" = ["Howard Carter"; "Howard Carter?"].
Proof. split; vm_compute; reflexivity. Qed.

(** C8, amended. [_expand_query] returns at most three variants, in the
    order original, original with "?" appended, "what is " followed by the
    original. The original is always first; the "?" variant is present
    exactly when the query does not end with "?"; the "what is" variant is
    present exactly when the lowercased query does not begin with one of
    the five strings what, how, why, when, where, whatever follows them. *)
Theorem expand_query_variants (query : string) :
  let expanded := _expand_query query in
  (length expanded ≤ 3)%nat
  ∧ expanded !! 0 = Some query
  ∧ sublist expanded [query; query ++ "?"; "what is " ++ query]
  ∧ (query ++ "?" ∈ expanded ↔ ¬ ∃ pre, query = pre ++ "?")
  ∧ ("what is " ++ query ∈ expanded
     ↔ ¬ ∃ w rest, w ∈ ["what"; "how"; "why"; "when"; "where"]
                   ∧ Str.lower query = w ++ rest).
Proof.
  intros expanded. subst expanded. unfold _expand_query.
  rewrite <- endswith_spec, <- startswith_any_spec.
  change ["what"; "how"; "why"; "when"; "where"] with interrogatives.
  pose proof (question_variant_fresh query) as Hq.
  pose proof (what_is_variant_fresh query) as Hw.
  pose proof (variants_differ query) as Hd.
  destruct (Str.endswith query "?") eqn:He;
    destruct (Str.startswith_any (Str.lower query) interrogatives) eqn:Hs;
    simpl.
  - split; [lia|]. split; [done|]. split.
    { apply sublist_skip, sublist_nil_l. }
    rewrite !list_elem_of_singleton. split; split; try done; congruence.
  - split; [lia|]. split; [done|]. split.
    { apply sublist_skip, sublist_cons, sublist_skip, sublist_nil. }
    rewrite !elem_of_cons, !elem_of_nil. split; split; try done.
    + intros [?|[?|[]]]; congruence.
    + intros _. right. by left.
  - split; [lia|]. split; [done|]. split.
    { apply sublist_skip, sublist_skip, sublist_nil_l. }
    rewrite !elem_of_cons, !elem_of_nil. split; split; try done.
    + intros _. right. by left.
    + intros [?|[?|[]]]; congruence.
  - split; [lia|]. split; [done|]. split; [done|].
    rewrite !elem_of_cons, !elem_of_nil. split; split; try done.
    + intros _. right. by left.
    + intros _. right. right. by left.
Qed.

(** ** Factories *)

Lemma chunking_strategies_lookup (tag : string) :
  chunking_strategies !! tag
  = if decide (tag = "hybrid") then Some new_HybridChunkingStrategy
    else if decide (tag = "contextual") then Some new_ContextualChunkingStrategy
    else if decide (tag = "semantic") then Some new_SemanticChunkingStrategy
    else if decide (tag = "recursive") then Some new_RecursiveChunkingStrategy
    else None.
Proof.
  unfold chunking_strategies.
  repeat (case_decide; [subst tag; by vm_compute|]).
  rewrite !lookup_insert_ne by congruence. apply lookup_empty.
Qed.

Lemma retriever_strategies_lookup (tag : string) :
  retriever_strategies !! tag
  = if decide (tag = "contextual") then Some ContextualRetrieverStrategy
    else if decide (tag = "hybrid") then Some (HybridRetrieverStrategy 0.7 0.3)
    else if decide (tag = "basic") then Some BasicRetrieverStrategy
    else None.
Proof.
  unfold retriever_strategies.
  repeat (case_decide; [subst tag; by vm_compute|]).
  rewrite !lookup_insert_ne by congruence. apply lookup_empty.
Qed.

(** The class [create_strategy] calls for a tag. *)
Lemma create_strategy_class (st : Settings) (L : Libraries) (tag : string) :
  create_strategy st L tag
  = (if decide (tag = "hybrid") then new_HybridChunkingStrategy
     else if decide (tag = "contextual") then new_ContextualChunkingStrategy
     else if decide (tag = "semantic") then new_SemanticChunkingStrategy
     else new_RecursiveChunkingStrategy) st L.
Proof.
  unfold create_strategy.
  destruct (decide (tag ∈ dom chunking_strategies)) as [Hin|Hout].
  - apply elem_of_dom in Hin as [class Hc]. rewrite Hc.
    rewrite chunking_strategies_lookup in Hc.
    repeat case_decide; congruence.
  - rewrite not_elem_of_dom, chunking_strategies_lookup in Hout.
    repeat case_decide; try discriminate. reflexivity.
Qed.

Lemma create_retriever_class (tag : string) :
  create_retriever tag
  = Ok (if decide (tag = "contextual") then ContextualRetrieverStrategy
        else if decide (tag = "hybrid") then HybridRetrieverStrategy 0.7 0.3
        else BasicRetrieverStrategy).
Proof.
  unfold create_retriever.
  destruct (decide (tag ∈ dom retriever_strategies)) as [Hin|Hout].
  - apply elem_of_dom in Hin as [class Hc]. rewrite Hc.
    rewrite retriever_strategies_lookup in Hc.
    repeat case_decide; congruence.
  - rewrite not_elem_of_dom, retriever_strategies_lookup in Hout.
    repeat case_decide; try discriminate. reflexivity.
Qed.

(** C9, as the claim states it, fails: [create_strategy] calls the
    constructor of the class it selects, and a constructor that raises makes
    the factory raise. Here the embedding model cannot be loaded. *)
Lemma create_strategy_raises_on_constructor_failure :
  create_strategy Fixtures.st Fixtures.libs_no_model "semantic"
  = Raise (LibraryError "model not found").
Proof. vm_compute. reflexivity. Qed.

(** C9, amended. No tag is rejected. [create_retriever] never raises: it
    returns the contextual strategy for contextual, the hybrid one with
    weights 0.7 and 0.3 for hybrid, and the basic one for basic and for any
    other tag. [create_strategy] calls the constructor of the class named by
    the tag, the recursive one for a tag outside recursive, semantic,
    contextual, hybrid, and is what that constructor is: the recursive
    class builds its text splitter from the configured sizes; the semantic
    class loads the embedding model and then builds the semantic chunker;
    the contextual class builds the same splitter and then loads the
    cl100k_base encoding; the hybrid class constructs the recursive and then
    the semantic class. It returns the strategy when these library
    constructors all return, and otherwise raises what the first of them to
    fail raised. *)
Theorem factories_accept_every_tag (st : Settings) (L : Libraries) (tag : string) :
  let recursive :=
    sp ← RecursiveCharacterTextSplitter L (chunk_size st) (chunk_overlap st);
    mret (RecursiveChunkingStrategy sp) in
  let semantic :=
    _ ← HuggingFaceEmbeddings L (embedding_model st);
    sp ← SemanticChunker L;
    mret (SemanticChunkingStrategy sp) in
  let contextual :=
    sp ← RecursiveCharacterTextSplitter L (chunk_size st) (chunk_overlap st);
    _ ← tiktoken_get_encoding L "cl100k_base";
    mret (ContextualChunkingStrategy sp) in
  let hybrid :=
    r ← recursive; s ← semantic; mret (HybridChunkingStrategy r s) in
  (∃ r, create_retriever tag = Ok r)
  ∧ (tag ∉ ["basic"; "hybrid"; "contextual"] →
     create_retriever tag = Ok BasicRetrieverStrategy)
  ∧ (tag ∉ ["recursive"; "semantic"; "contextual"; "hybrid"] →
     create_strategy st L tag = new_RecursiveChunkingStrategy st L)
  ∧ create_retriever tag
    = Ok (if decide (tag = "contextual") then ContextualRetrieverStrategy
          else if decide (tag = "hybrid") then HybridRetrieverStrategy 0.7 0.3
          else BasicRetrieverStrategy)
  ∧ create_strategy st L tag
    = (if decide (tag = "hybrid") then hybrid
       else if decide (tag = "contextual") then contextual
       else if decide (tag = "semantic") then semantic
       else recursive)
  ∧ (∀ e, tag ≠ "semantic" →
       RecursiveCharacterTextSplitter L (chunk_size st) (chunk_overlap st) = Raise e →
       create_strategy st L tag = Raise e)
  ∧ (∀ e, tag = "semantic" →
       HuggingFaceEmbeddings L (embedding_model st) = Raise e →
       create_strategy st L tag = Raise e)
  ∧ ((∀ size overlap, ∃ sp, RecursiveCharacterTextSplitter L size overlap = Ok sp) →
     (∀ model, HuggingFaceEmbeddings L model = Ok ()) →
     (∃ sp, SemanticChunker L = Ok sp) →
     (∀ enc, tiktoken_get_encoding L enc = Ok ()) →
     ∃ s, create_strategy st L tag = Ok s).
Proof.
  intros recursive semantic contextual hybrid.
  rewrite create_retriever_class, create_strategy_class.
  split; [by eexists|].
  split.
  { rewrite !not_elem_of_cons. intros (? & ? & ? & _).
    repeat case_decide; congruence. }
  split.
  { rewrite !not_elem_of_cons. intros (? & ? & ? & ? & _).
    repeat case_decide; congruence. }
  split; [reflexivity|].
  split.
  { repeat case_decide; reflexivity. }
  split.
  { intros e Htag Hsp.
    unfold new_HybridChunkingStrategy, new_ContextualChunkingStrategy,
      new_RecursiveChunkingStrategy.
    repeat case_decide; try congruence; by rewrite Hsp. }
  split.
  { intros e Htag Hemb. subst tag. unfold new_SemanticChunkingStrategy.
    repeat case_decide; try congruence. by rewrite Hemb. }
  intros Hsplit Hemb [sem Hsem] Henc.
  destruct (Hsplit (chunk_size st) (chunk_overlap st)) as [sp Hsp].
  assert (Hr : new_RecursiveChunkingStrategy st L = Ok (RecursiveChunkingStrategy sp)).
  { unfold new_RecursiveChunkingStrategy. by rewrite Hsp. }
  assert (Hs : new_SemanticChunkingStrategy st L = Ok (SemanticChunkingStrategy sem)).
  { unfold new_SemanticChunkingStrategy. by rewrite Hemb, Hsem. }
  repeat case_decide; [| | |by eexists].
  - unfold new_HybridChunkingStrategy. rewrite Hr, Hs. by eexists.
  - unfold new_ContextualChunkingStrategy. rewrite Hsp, Henc. by eexists.
  - by eexists.
Qed.

(** ** Hybrid retrieval *)

Lemma basic_retrieve_run (query : string) (vs : VectorStore) :
  basic_retrieve query vs
  = ([SimilaritySearch query 5],
     Ok (match on_similarity_search vs query 5 with
         | Ok results => results
         | Raise _ => []
         end)).
Proof.
  unfold basic_retrieve, similarity_search. run_exec.
  by destruct (on_similarity_search vs query 5).
Qed.

Lemma hybrid_keys (query : string) (candidates : list snippet) :
  map (λ x, score_or_zero (hybrid_score x))
      (map (λ d, set_hybrid_score (Spec.hybrid_score query d) d) candidates)
  = map (Spec.hybrid_score query) candidates.
Proof. rewrite map_map. by apply map_ext. Qed.

(** C2, as the claim states it, fails: it does not hold for every vector
    store. Against a store that refuses a search for 8 snippets the strategy
    falls back to the basic strategy's search for 5 and returns its answer
    as it is: no snippet has a hybrid score, and the first one returned
    would score less than the second, so the result is neither scored nor
    in descending order of the score. *)
Lemma hybrid_retrieve_unranked_when_search_raises :
  retrieve (λ _, 0%Z) (HybridRetrieverStrategy 0.7 0.3) "gamma"
           (Fixtures.store_at_most 5 Fixtures.corpus)
  = ([SimilaritySearch "gamma" 8; SimilaritySearch "gamma" 5],
     Ok Fixtures.corpus)
  ∧ map hybrid_score Fixtures.corpus = [None; None; None; None]
  ∧ Fixtures.corpus !! 0%nat = Some (Fixtures.doc "alpha beta" 0.5)
  ∧ Fixtures.corpus !! 1%nat = Some (Fixtures.doc "gamma" 0.9)
  ∧ (Spec.hybrid_score "gamma" (Fixtures.doc "alpha beta" 0.5)
     <? Spec.hybrid_score "gamma" (Fixtures.doc "gamma" 0.9))%float = true.
Proof. repeat split; vm_compute; reflexivity. Qed.

(** C2, amended. For every query and store, the hybrid strategy, which the
    factory builds with the weights 0.7 and 0.3, first asks the store for
    the top 8 similarity candidates. When the store answers, that is its
    only call; every candidate gets the score 0.7 * similarity + 0.3 *
    keyword score, the keyword score being the number of distinct query
    terms found among the candidate's distinct terms divided by the number
    of distinct query terms, and 0 for a query without terms; and the result
    is the first 5 of the candidates arranged in descending order of that
    score. Descending order supposes that the scores can be ordered: none of
    them is a NaN. When the search for the top 8 raises, the strategy
    instead makes the basic strategy's search for the top 5 and returns its
    answer unscored and in the store's order, or nothing if that search
    raises too. *)
Theorem hybrid_retrieve_ranking (hash : string → Z) (query : string)
    (vs : VectorStore) :
  create_retriever "hybrid" = Ok (HybridRetrieverStrategy 0.7 0.3)
  ∧ (∃ rest,
       trace (retrieve hash (HybridRetrieverStrategy 0.7 0.3) query vs)
       = SimilaritySearch query 8 :: rest)
  ∧ (∀ e,
       on_similarity_search vs query 8 = Raise e →
       retrieve hash (HybridRetrieverStrategy 0.7 0.3) query vs
       = ([SimilaritySearch query 8; SimilaritySearch query 5],
          Ok (match on_similarity_search vs query 5 with
              | Ok results => results
              | Raise _ => []
              end)))
  ∧ ∀ candidates,
      on_similarity_search vs query 8 = Ok candidates →
      no_nan (map (Spec.hybrid_score query) candidates) →
      ∃ ranked,
        retrieve hash (HybridRetrieverStrategy 0.7 0.3) query vs
        = ([SimilaritySearch query 8], Ok (take 5 ranked))
        ∧ ranked ≡ₚ map (λ d, set_hybrid_score (Spec.hybrid_score query d) d)
                        candidates
        ∧ descending (λ d, score_or_zero (hybrid_score d)) ranked.
Proof.
  split; [reflexivity|]. split; [|split].
  - unfold retrieve, hybrid_retrieve. rewrite basic_retrieve_run.
    unfold similarity_search. run_exec.
    destruct (on_similarity_search vs query 8) as [results|e]; simpl.
    + destruct (mapM _ results); simpl; by eexists.
    + by eexists.
  - intros e Hraise. unfold retrieve, hybrid_retrieve.
    rewrite basic_retrieve_run. unfold similarity_search. run_exec.
    by rewrite Hraise.
  - intros candidates Hsearch Hord.
    set (scored :=
           map (λ d, set_hybrid_score (Spec.hybrid_score query d) d) candidates).
    exists (sorted_reverse (λ x, score_or_zero (hybrid_score x)) scored).
    split; [|split].
    + unfold retrieve, hybrid_retrieve, similarity_search. run_exec.
      rewrite Hsearch.
      rewrite (mapM_Ok _ (λ d, set_hybrid_score (Spec.hybrid_score query d) d))
        by (intros; apply hybrid_annotate_spec).
      reflexivity.
    + apply sorted_reverse_perm.
    + apply sorted_reverse_descending, no_nan_strict_weak.
      subst scored. by rewrite hybrid_keys.
Qed.

Lemma hybrid_retrieve_ranking_witness :
  ∃ ranked,
    retrieve (λ _, 0%Z) (HybridRetrieverStrategy 0.7 0.3) "alpha beta"
             (Fixtures.store_of Fixtures.corpus)
    = ([SimilaritySearch "alpha beta" 8], Ok (take 5 ranked))
    ∧ ranked ≡ₚ map (λ d, set_hybrid_score (Spec.hybrid_score "alpha beta" d) d)
                    Fixtures.corpus
    ∧ descending (λ d, score_or_zero (hybrid_score d)) ranked.
Proof.
  apply (proj2 (proj2 (proj2 (hybrid_retrieve_ranking (λ _, 0%Z) "alpha beta"
                                (Fixtures.store_of Fixtures.corpus))))
           Fixtures.corpus).
  - reflexivity.
  - no_nan_by_computation.
Defined.

(** The specification's worked example: query terms a and b, a candidate of
    similarity 0.8 holding one of the two, so a keyword score of 0.5; the
    code stores binary64's 0.71. *)
Example hybrid_score_worked_example :
  hybrid_annotate 0.7 0.3 (terms "a b") (Fixtures.doc "a" 0.8)
  = Ok (set_hybrid_score 0.71 (Fixtures.doc "a" 0.8))
  ∧ Spec.keyword_score "a b" "a" = 0.5%float.
Proof. split; vm_compute; reflexivity. Qed.

(** ** Contextual retrieval: deduplication *)

Section Dedup.
Variable hash : string → Z.

Let key (d : snippet) : Z := hash (Spec.prefix_100 d).

Lemma dedup_step_inv (acc : list snippet * gset Z) (r : snippet) :
  dedup_inv hash acc → dedup_inv hash (dedup_step hash acc r).
Proof.
  intros [Hnd Hseen]. unfold dedup_step.
  fold (Spec.prefix_100 r). fold (key r).
  destruct (decide (key r ∉ acc.2)) as [Hnew|Hold]; [|done].
  split; simpl.
  - rewrite map_app. simpl. apply NoDup_app. split; [done|]. split.
    + intros h Hh Hr. apply list_elem_of_singleton in Hr as ->.
      apply Hnew. by apply Hseen.
    + apply NoDup_singleton.
  - intros h. rewrite map_app, elem_of_app, elem_of_union, Hseen.
    simpl. rewrite elem_of_singleton, list_elem_of_singleton. tauto.
Qed.

Lemma dedup_foldl (results : list snippet) (acc : list snippet * gset Z) :
  dedup_inv hash acc →
  let out := foldl (dedup_step hash) acc results in
  dedup_inv hash out
  ∧ (∃ kept, out.1 = (acc.1 ++ kept)%list ∧ sublist kept results)
  ∧ (∀ d, d ∈ results → key d ∈ out.2)
  ∧ acc.2 ⊆ out.2.
Proof.
  revert acc. induction results as [|r results IH]; intros acc Hinv; simpl.
  - split; [done|]. split; [exists []; by rewrite app_nil_r|].
    split; [by intros d ?%elem_of_nil|done].
  - pose proof (dedup_step_inv acc r Hinv) as Hinv'.
    destruct (IH _ Hinv') as (Hout & (kept & Hk & Hsub) & Hcov & Hmono).
    split; [done|]. split; [|split].
    + unfold dedup_step in Hk |- *.
      fold (Spec.prefix_100 r) in Hk |- *. fold (key r) in Hk |- *.
      destruct (decide (key r ∉ acc.2)); simpl in Hk.
      * exists (r :: kept). rewrite Hk, <- app_assoc. split; [done|].
        by apply sublist_skip.
      * exists kept. split; [done|]. by apply sublist_cons.
    + intros d [->|Hd]%elem_of_cons; [|by apply Hcov].
      apply Hmono. unfold dedup_step.
      fold (Spec.prefix_100 r). fold (key r).
      destruct (decide (key r ∉ acc.2)) as [|Hin]; simpl.
      * by apply elem_of_union_l, elem_of_singleton.
      * by apply dec_stable in Hin.
    + etrans; [|exact Hmono]. unfold dedup_step.
      destruct (decide _); simpl; [apply union_subseteq_r|done].
Qed.

(** The snippets kept are a subsequence of the merged results in which no
    two share their first 100 characters, and every merged snippet has
    the hash of a kept one. *)
Lemma deduplicate_results_spec (results : list snippet) :
  let unique := _deduplicate_results hash results in
  sublist unique results
  ∧ NoDup (map Spec.prefix_100 unique)
  ∧ (∀ d, d ∈ results → ∃ d', d' ∈ unique ∧ key d' = key d).
Proof.
  unfold _deduplicate_results.
  destruct (dedup_foldl results ([], ∅)) as ([Hnd Hseen] & (kept & Hk & Hsub) & Hcov & _).
  { split; [constructor|]. simpl. set_solver. }
  simpl in Hk. split; [by rewrite Hk|]. split.
  - apply (NoDup_fmap_1 hash). by rewrite <- list_fmap_compose.
  - intros d Hd. apply Hcov, Hseen, list_elem_of_fmap in Hd as (d' & Hd' & Hin).
    by exists d'.
Qed.

Lemma deduplicate_results_nil : _deduplicate_results hash [] = [].
Proof. reflexivity. Qed.

Lemma deduplicate_results_nonempty (results : list snippet) :
  results ≠ [] → _deduplicate_results hash results ≠ [].
Proof.
  destruct results as [|d results]; [done|]. intros _ Hnil.
  destruct (deduplicate_results_spec (d :: results)) as (_ & _ & Hcov).
  destruct (Hcov d) as (d' & Hd' & _); [by left|].
  rewrite Hnil in Hd'. by apply elem_of_nil in Hd'.
Qed.
End Dedup.

(** ** Contextual retrieval: ranking *)

Lemma relevance_keys (query : string) (l : list snippet) :
  map (λ x, score_or_zero (relevance_score x))
      (map (λ d, set_relevance_score (Spec.overlap_ratio query d) d) l)
  = map (Spec.overlap_ratio query) l.
Proof. rewrite map_map. by apply map_ext. Qed.

Lemma rank_results_Ok (results : list snippet) (query : string) :
  terms query ≠ ∅ →
  _rank_results results query
  = Ok (sorted_reverse (λ x, score_or_zero (relevance_score x))
          (map (λ d, set_relevance_score (Spec.overlap_ratio query d) d) results)).
Proof.
  intros Hne. unfold _rank_results.
  rewrite (mapM_Ok _ (λ d, set_relevance_score (Spec.overlap_ratio query d) d))
    by (intros; by apply rank_annotate_spec).
  reflexivity.
Qed.

Lemma rank_results_nil (query : string) : _rank_results [] query = Ok [].
Proof. reflexivity. Qed.

Lemma rank_results_division_by_zero (results : list snippet) (query : string) :
  terms query = ∅ → results ≠ [] →
  _rank_results results query = Raise ZeroDivisionError.
Proof.
  intros He Hne. destruct results as [|d results]; [done|].
  unfold _rank_results.
  by rewrite (mapM_Raise_head _ _ _ ZeroDivisionError) by by apply rank_annotate_empty.
Qed.

Lemma contextual_retrieve_unfold (hash : string → Z) (query : string)
    (vs : VectorStore) (tr : list event) (merged : list snippet) :
  search_all vs (_expand_query query) [] = (tr, Ok merged) →
  contextual_retrieve hash query vs
  = match _rank_results (_deduplicate_results hash merged) query with
    | Ok ranked => (tr, Ok (take 5 ranked))
    | Raise _ =>
        ((tr ++ trace (basic_retrieve query vs))%list,
         outcome (basic_retrieve query vs))
    end.
Proof.
  intros Hs. unfold contextual_retrieve. rewrite Hs. run_exec. cbv zeta.
  destruct (_rank_results _ query) as [ranked|e]; simpl.
  - by rewrite !app_nil_r.
  - rewrite app_nil_r. by destruct (basic_retrieve query vs).
Qed.

(** C5, as the claim states it, fails for a query without terms. For the
    query of two spaces against a store holding the same snippet twice, the
    merged results are deduplicated, but ranking them divides by zero, and
    the strategy returns the basic strategy's answer instead: both copies,
    which agree on their first 100 characters, and neither of them with a
    relevance score. *)
Lemma contextual_blank_query_keeps_duplicates :
  retrieve (λ s, Z.of_nat (String.length s)) ContextualRetrieverStrategy "  "
           (Fixtures.store_of [Fixtures.doc "alpha" 0.5; Fixtures.doc "alpha" 0.5])
  = ([SimilaritySearch "  " 3; SimilaritySearch "  ?" 3;
      SimilaritySearch "what is   " 3; SimilaritySearch "  " 5],
     Ok [Fixtures.doc "alpha" 0.5; Fixtures.doc "alpha" 0.5])
  ∧ Str.take 100 (content (Fixtures.doc "alpha" 0.5)) = "alpha"
  ∧ relevance_score (Fixtures.doc "alpha" 0.5) = None.
Proof. repeat split. Qed.

(** C5, amended. Once the per-variant searches have answered, the
    contextual strategy keeps a subsequence of the merged snippets in which
    no two agree on their first 100 characters, every merged snippet having
    the hash of one that is kept; provided the original query has at least
    one term, it then gives each kept snippet its keyword-overlap ratio
    against the original query, arranges them in descending order of that
    ratio and returns the first 5, so at most 5. Descending order supposes
    that the ratios can be ordered: none of them is a NaN. *)
Theorem contextual_dedup_and_rank (hash : string → Z) (query : string)
    (vs : VectorStore) (tr : list event) (merged : list snippet) :
  search_all vs (_expand_query query) [] = (tr, Ok merged) →
  terms query ≠ ∅ →
  no_nan (map (Spec.overlap_ratio query) (_deduplicate_results hash merged)) →
  let unique := _deduplicate_results hash merged in
  sublist unique merged
  ∧ NoDup (map Spec.prefix_100 unique)
  ∧ (∀ d, d ∈ merged →
       ∃ d', d' ∈ unique
             ∧ hash (Spec.prefix_100 d') = hash (Spec.prefix_100 d))
  ∧ ∃ ranked,
      retrieve hash ContextualRetrieverStrategy query vs = (tr, Ok (take 5 ranked))
      ∧ ranked ≡ₚ map (λ d, set_relevance_score (Spec.overlap_ratio query d) d) unique
      ∧ descending (λ d, score_or_zero (relevance_score d)) ranked
      ∧ (length (take 5 ranked) ≤ 5)%nat.
Proof.
  intros Hs Hne Hord unique.
  destruct (deduplicate_results_spec hash merged) as (Hsub & Hnd & Hcov).
  split; [done|]. split; [done|]. split; [done|].
  eexists. split; [|split; [|split]].
  - unfold retrieve. rewrite (contextual_retrieve_unfold _ _ _ _ _ Hs).
    by rewrite rank_results_Ok.
  - apply sorted_reverse_perm.
  - apply sorted_reverse_descending, no_nan_strict_weak.
    by rewrite relevance_keys.
  - rewrite length_take. lia.
Qed.

Lemma contextual_dedup_and_rank_witness :
  ∃ ranked,
    retrieve (λ s, Z.of_nat (String.length s)) ContextualRetrieverStrategy
             "alpha beta" (Fixtures.store_of Fixtures.corpus)
    = ([SimilaritySearch "alpha beta" 3; SimilaritySearch "alpha beta?" 3;
        SimilaritySearch "what is alpha beta" 3], Ok (take 5 ranked))
    ∧ (length (take 5 ranked) ≤ 5)%nat.
Proof.
  destruct (contextual_dedup_and_rank (λ s, Z.of_nat (String.length s))
              "alpha beta" (Fixtures.store_of Fixtures.corpus)
              [SimilaritySearch "alpha beta" 3; SimilaritySearch "alpha beta?" 3;
               SimilaritySearch "what is alpha beta" 3]
              (take 3 Fixtures.corpus ++ take 3 Fixtures.corpus
               ++ take 3 Fixtures.corpus)%list)
    as (_ & _ & _ & ranked & Hr & _ & _ & Hlen).
  - reflexivity.
  - vm_compute. discriminate.
  - vm_compute map. no_nan_by_computation.
  - exists ranked. split; assumption.
Defined.

(** C10, as the claim states it, fails: for the empty query against a store
    that answers every search with nothing, there is nothing to rank, no
    division takes place, and [retrieve] returns the empty list on its
    normal path, without the fallback's search for the top 5. *)
Lemma contextual_rank_no_division_without_results :
  terms "" = ∅
  ∧ _rank_results (_deduplicate_results (λ _, 0%Z) []) "" = Ok []
  ∧ retrieve (λ _, 0%Z) ContextualRetrieverStrategy "" (Fixtures.store_of [])
    = ([SimilaritySearch "" 3; SimilaritySearch "?" 3;
        SimilaritySearch "what is " 3], Ok []).
Proof. repeat split. Qed.

(** C10, amended. A query made of white space only, the empty one included,
    has no terms. For a query without terms, the division in
    [_rank_results] is unguarded: whenever the merged searches returned at
    least one snippet it raises [ZeroDivisionError], which [retrieve]
    catches, returning what the basic strategy returns after the searches
    already made; when they returned none, nothing is divided and
    [retrieve] returns the empty list. The hybrid strategy guards the same
    division and scores such a query's keyword part as 0. *)
Theorem contextual_rank_division_by_zero (hash : string → Z) (query : string)
    (vs : VectorStore) (tr : list event) (merged : list snippet) :
  (Forall (λ c, Str.isspace c = true) (list_ascii_of_string query) →
   terms query = ∅)
  ∧ (terms query = ∅ →
     search_all vs (_expand_query query) [] = (tr, Ok merged) →
     (merged ≠ [] →
        _rank_results (_deduplicate_results hash merged) query
        = Raise ZeroDivisionError
        ∧ retrieve hash ContextualRetrieverStrategy query vs
          = ((tr ++ trace (basic_retrieve query vs))%list,
             outcome (basic_retrieve query vs)))
     ∧ (merged = [] →
        _rank_results (_deduplicate_results hash merged) query = Ok []
        ∧ retrieve hash ContextualRetrieverStrategy query vs = (tr, Ok []))
     ∧ (∀ doc, hybrid_annotate 0.7 0.3 (terms query) doc
               = Ok (set_hybrid_score
                       (0.7 * score_or_zero (similarity_score doc) + 0.3 * 0)%float
                       doc))).
Proof.
  split; [apply terms_blank|].
  intros He Hs. unfold retrieve.
  rewrite (contextual_retrieve_unfold _ _ _ _ _ Hs).
  split; [|split].
  - intros Hne.
    rewrite rank_results_division_by_zero;
      [done|done|by apply deduplicate_results_nonempty].
  - intros ->. by rewrite deduplicate_results_nil, rank_results_nil.
  - intros doc. unfold hybrid_annotate. rewrite He.
    destruct (decide (∅ ≠ ∅)) as [Hne|_]; [done|]. reflexivity.
Qed.

Lemma contextual_rank_division_by_zero_witness :
  _rank_results (_deduplicate_results (λ _, 0%Z) [Fixtures.doc "alpha" 0.5]) "  "
  = Raise ZeroDivisionError
  ∧ retrieve (λ _, 0%Z) ContextualRetrieverStrategy "  "
             (Fixtures.store_of [Fixtures.doc "alpha" 0.5])
    = ([SimilaritySearch "  " 3; SimilaritySearch "  ?" 3;
        SimilaritySearch "what is   " 3; SimilaritySearch "  " 5],
       Ok [Fixtures.doc "alpha" 0.5]).
Proof.
  destruct (contextual_rank_division_by_zero (λ _, 0%Z) "  "
              (Fixtures.store_of [Fixtures.doc "alpha" 0.5])
              [SimilaritySearch "  " 3; SimilaritySearch "  ?" 3;
               SimilaritySearch "what is   " 3]
              [Fixtures.doc "alpha" 0.5; Fixtures.doc "alpha" 0.5;
               Fixtures.doc "alpha" 0.5])
    as (Hblank & Hrank).
  destruct Hrank as (Hraise & _ & _).
  - apply Hblank. repeat constructor.
  - reflexivity.
  - apply Hraise. discriminate.
Defined.

(** ** Retrieval as the orchestrator sees it *)

Lemma search_all_searches_only (vs : VectorStore) (queries : list string)
    (acc : list snippet) :
  Forall is_search (trace (search_all vs queries acc)).
Proof.
  revert acc. induction queries as [|q queries IH]; intros acc; simpl.
  - constructor.
  - unfold similarity_search. run_exec.
    destruct (on_similarity_search vs q 3) as [results|e]; simpl.
    + specialize (IH (acc ++ results)%list).
      destruct (search_all vs queries (acc ++ results)) as [t r]. simpl in *.
      by constructor.
    + by repeat constructor.
Qed.

(** Every strategy only searches the store, and none lets an exception
    escape. *)
Lemma retrieve_searches_only (hash : string → Z) (s : RetrieverStrategy)
    (query : string) (vs : VectorStore) :
  Forall is_search (trace (retrieve hash s query vs))
  ∧ ∃ docs, outcome (retrieve hash s query vs) = Ok docs.
Proof.
  destruct s as [|sw kw|]; unfold retrieve.
  - rewrite basic_retrieve_run. split; [by repeat constructor|by eexists].
  - unfold hybrid_retrieve. rewrite basic_retrieve_run.
    unfold similarity_search. run_exec.
    destruct (on_similarity_search vs query 8) as [results|e]; simpl.
    + destruct (mapM _ results); simpl;
        (split; [by repeat constructor|by eexists]).
    + split; [by repeat constructor|by eexists].
  - unfold contextual_retrieve. rewrite basic_retrieve_run.
    pose proof (search_all_searches_only vs (_expand_query query) []) as Hs.
    run_exec. destruct (search_all vs (_expand_query query) []) as [t [merged|e]];
      simpl in *.
    + destruct (_rank_results _ query); simpl.
      * rewrite !app_nil_r. split; [done|by eexists].
      * rewrite app_nil_r. split; [|by eexists].
        apply Forall_app. split; [done|by repeat constructor].
    + split; [|by eexists].
      apply Forall_app. split; [done|by repeat constructor].
Qed.

(** ** The orchestrator *)

(** C3. When the configured strategy retrieves nothing, [ask_question]
    returns exactly the fixed sentence, spelled out below, and
    [ask_question_stream] yields exactly that one fragment; the only calls
    made are the searches of the retrieval, so the language model is never
    asked. *)
Theorem empty_retrieval_short_circuits (w : World) (self : PDFQAAgent.t)
    (question : string) :
  let retrieval :=
    retrieve (hash w) (PDFQAAgent.retriever self) question (PDFQAAgent.store w self) in
  outcome retrieval = Ok [] →
  PDFQAAgent.ask_question w self question
  = (trace retrieval,
     Ok "I couldn't find any relevant information in the knowledge base to answer your question.")
  ∧ PDFQAAgent.ask_question_stream w self question
    = (trace retrieval,
       ["I couldn't find any relevant information in the knowledge base to answer your question."])
  ∧ (∀ prompt context, GenerateResponse prompt context ∉ trace retrieval).
Proof.
  intros retrieval Hempty.
  destruct (retrieve_searches_only (hash w) (PDFQAAgent.retriever self) question
              (PDFQAAgent.store w self)) as [Hsearch _].
  fold retrieval in Hsearch.
  unfold PDFQAAgent.ask_question, PDFQAAgent.ask_question_stream.
  fold retrieval. destruct retrieval as [tr r]. run_exec. simpl in *. subst r.
  split; [by rewrite app_nil_r|]. split; [done|].
  intros prompt context Hin.
  rewrite Forall_forall in Hsearch. by apply Hsearch in Hin.
Qed.

Lemma empty_retrieval_short_circuits_witness :
  PDFQAAgent.ask_question (Fixtures.world Fixtures.fs)
    (Fixtures.agent (Fixtures.chroma_of []) BasicRetrieverStrategy) "what is this?"
  = ([SimilaritySearch "what is this?" 5],
     Ok "I couldn't find any relevant information in the knowledge base to answer your question.")
  ∧ PDFQAAgent.ask_question_stream (Fixtures.world Fixtures.fs)
      (Fixtures.agent (Fixtures.chroma_of []) BasicRetrieverStrategy) "what is this?"
    = ([SimilaritySearch "what is this?" 5],
       ["I couldn't find any relevant information in the knowledge base to answer your question."]).
Proof.
  destruct (empty_retrieval_short_circuits (Fixtures.world Fixtures.fs)
              (Fixtures.agent (Fixtures.chroma_of []) BasicRetrieverStrategy)
              "what is this?") as (Hask & Hstream & _).
  - reflexivity.
  - split; [exact Hask|exact Hstream].
Defined.

Lemma pipeline_extraction_failure (fs : FileSystem) (p : PDFProcessor.t)
    (file_path : Path) (e : exn) :
  pdf_page_texts fs file_path = Raise e →
  PDFProcessor.process_pdf fs p file_path = Raise e.
Proof.
  intros H. unfold PDFProcessor.process_pdf, PDFProcessor.extract_text.
  by rewrite H.
Qed.

Lemma pipeline_chunking_failure (fs : FileSystem) (p : PDFProcessor.t)
    (file_path : Path) (text : string) (file_size : Z) (e : exn) :
  PDFProcessor.extract_text fs file_path = Ok text →
  stat_st_size fs file_path = Ok file_size →
  chunk_text (PDFProcessor.chunking_strategy p) text
             (PDFProcessor.document_metadata file_path file_size) = Raise e →
  PDFProcessor.process_pdf fs p file_path = Raise e.
Proof.
  intros Ht Hs Hc. unfold PDFProcessor.process_pdf, PDFProcessor.chunk_document.
  rewrite Ht. cbn. rewrite Hs. cbn. by rewrite Hc.
Qed.

Lemma agent_process_pdf_run (w : World) (self : PDFQAAgent.t) (file_path : Path) :
  PDFQAAgent.process_pdf w self file_path
  = match PDFProcessor.process_pdf (files w) (PDFQAAgent.pdf_processor self) file_path with
    | Raise _ => ([], Ok false)
    | Ok [] => ([], Ok false)
    | Ok chunks =>
        ([AddDocuments chunks],
         Ok (match on_add_documents (PDFQAAgent.store w self) chunks with
             | Ok _ => true
             | Raise _ => false
             end))
    end.
Proof.
  unfold PDFQAAgent.process_pdf, add_documents. run_exec.
  destruct (PDFProcessor.process_pdf _ _ _) as [[|c chunks]|e]; try reflexivity.
  by destruct (on_add_documents _ _).
Qed.

(** C6. [process_pdf] of the agent always returns a boolean. It returns
    false, without calling the store, when the pipeline produces no chunk
    and when the pipeline raises, be it in extraction or in chunking; it
    returns false when the store's [add_documents], given the chunks,
    raises; and when it returns true the pipeline has produced chunks, at
    least one, and they have been passed to [add_documents], which
    returned. *)
Theorem process_pdf_returns_boolean (w : World) (self : PDFQAAgent.t)
    (file_path : Path) :
  let pipeline :=
    PDFProcessor.process_pdf (files w) (PDFQAAgent.pdf_processor self) file_path in
  let run := PDFQAAgent.process_pdf w self file_path in
  (∃ b, outcome run = Ok b)
  ∧ (pipeline = Ok [] → run = ([], Ok false))
  ∧ (∀ e, pipeline = Raise e → run = ([], Ok false))
  ∧ (∀ e, pdf_page_texts (files w) file_path = Raise e → run = ([], Ok false))
  ∧ (∀ text file_size e,
       PDFProcessor.extract_text (files w) file_path = Ok text →
       stat_st_size (files w) file_path = Ok file_size →
       chunk_text (PDFProcessor.chunking_strategy (PDFQAAgent.pdf_processor self))
                  text (PDFProcessor.document_metadata file_path file_size)
       = Raise e →
       run = ([], Ok false))
  ∧ (∀ chunks e,
       pipeline = Ok chunks → chunks ≠ [] →
       on_add_documents (PDFQAAgent.store w self) chunks = Raise e →
       run = ([AddDocuments chunks], Ok false))
  ∧ (outcome run = Ok true →
     ∃ chunks,
       chunks ≠ [] ∧ pipeline = Ok chunks
       ∧ trace run = [AddDocuments chunks]
       ∧ on_add_documents (PDFQAAgent.store w self) chunks = Ok ()).
Proof.
  intros pipeline run. subst run. rewrite agent_process_pdf_run.
  fold pipeline.
  assert (Hraise : ∀ e, pipeline = Raise e →
            match pipeline with
            | Ok [] | Raise _ => ([], Ok false)
            | Ok chunks =>
                ([AddDocuments chunks],
                 Ok (match on_add_documents (PDFQAAgent.store w self) chunks with
                     | Ok _ => true
                     | Raise _ => false
                     end))
            end = (([], Ok false) : Exec bool)).
  { by intros e ->. }
  split; [|split; [|split; [|split; [|split; [|split]]]]].
  - destruct pipeline as [[|c chunks]|e]; by eexists.
  - by intros ->.
  - exact Hraise.
  - intros e He. apply (Hraise e). by apply pipeline_extraction_failure.
  - intros text file_size e Ht Hs Hc. apply (Hraise e).
    by apply (pipeline_chunking_failure _ _ _ text file_size).
  - intros chunks e -> Hne Hadd. destruct chunks as [|c chunks]; [done|].
    by rewrite Hadd.
  - clear Hraise.
    destruct pipeline as [[|c chunks]|e]; unfold outcome, trace; cbn [fst snd];
      try (intros H; discriminate H).
    destruct (on_add_documents _ _) as [[]|e] eqn:Hadd;
      [|intros H; discriminate H].
    intros _. by exists (c :: chunks).
Qed.

Lemma process_pdf_returns_boolean_witness :
  PDFQAAgent.process_pdf (Fixtures.world Fixtures.fs_unreadable)
    (Fixtures.agent (Fixtures.chroma_of []) BasicRetrieverStrategy) Fixtures.file
  = ([], Ok false)
  ∧ ∃ chunks,
      chunks ≠ []
      ∧ trace (PDFQAAgent.process_pdf (Fixtures.world Fixtures.fs)
                 (Fixtures.agent (Fixtures.chroma_of []) BasicRetrieverStrategy)
                 Fixtures.file)
        = [AddDocuments chunks].
Proof.
  split.
  - refine (proj1 (proj2 (proj2 (proj2 (process_pdf_returns_boolean _ _ _))))
              (LibraryError "not a PDF") _).
    reflexivity.
  - destruct (proj2 (proj2 (proj2 (proj2 (proj2 (proj2
                (process_pdf_returns_boolean (Fixtures.world Fixtures.fs)
                   (Fixtures.agent (Fixtures.chroma_of []) BasicRetrieverStrategy)
                   Fixtures.file)))))))
      as (chunks & Hne & _ & Htr & _).
    + reflexivity.
    + by exists chunks.
Defined.

(** C7. [clear_knowledge_base] first deletes the collection and then builds
    a new vector store. When both succeed it returns true and the agent
    holds the store just built; when the deletion raises it returns false
    without building anything and the agent is unchanged; when the
    construction raises it returns false as well. It never raises. *)
Theorem clear_knowledge_base_outcomes (w : World) (self : PDFQAAgent.t) :
  let deletion :=
    client_delete_collection (PDFQAAgent.vector_store self)
                             (collection_name (settings w)) in
  (∀ v, deletion = Ok () → new_ChromaVectorStore w = Ok v →
     PDFQAAgent.clear_knowledge_base w self
     = ([DeleteCollection; NewVectorStore], true, PDFQAAgent.set_vector_store v self)
     ∧ PDFQAAgent.vector_store (PDFQAAgent.set_vector_store v self) = v)
  ∧ (∀ e, deletion = Raise e →
     PDFQAAgent.clear_knowledge_base w self = ([DeleteCollection], false, self))
  ∧ (∀ e, deletion = Ok () → new_ChromaVectorStore w = Raise e →
     PDFQAAgent.clear_knowledge_base w self
     = ([DeleteCollection; NewVectorStore], false, self)).
Proof.
  intros deletion.
  unfold PDFQAAgent.clear_knowledge_base, delete_collection, PDFQAAgent.store.
  run_exec. simpl. unfold ChromaVectorStore_delete_collection.
  fold deletion. split; [|split].
  - intros v -> ->. by split.
  - by intros e ->.
  - by intros e -> ->.
Qed.

Lemma clear_knowledge_base_outcomes_witness :
  PDFQAAgent.clear_knowledge_base (Fixtures.world Fixtures.fs)
    (Fixtures.agent Fixtures.chroma_locked BasicRetrieverStrategy)
  = ([DeleteCollection], false,
     Fixtures.agent Fixtures.chroma_locked BasicRetrieverStrategy)
  ∧ PDFQAAgent.clear_knowledge_base (Fixtures.world Fixtures.fs)
      (Fixtures.agent (Fixtures.chroma_of []) BasicRetrieverStrategy)
    = ([DeleteCollection; NewVectorStore], true,
       PDFQAAgent.set_vector_store (Fixtures.chroma_of [])
         (Fixtures.agent (Fixtures.chroma_of []) BasicRetrieverStrategy)).
Proof.
  split.
  - refine (proj1 (proj2 (clear_knowledge_base_outcomes _ _))
              (LibraryError "locked") _).
    reflexivity.
  - refine (proj1 (proj1 (clear_knowledge_base_outcomes (Fixtures.world Fixtures.fs)
              (Fixtures.agent (Fixtures.chroma_of []) BasicRetrieverStrategy))
              (Fixtures.chroma_of []) _ _)); reflexivity.
Defined.

(** * Further properties of the code *)

(** ** Chunk records *)

(** The keys a chunking strategy writes. *)
Lemma tagged_chunk_frame (tag : string) (md : gmap string value) (i : nat)
    (c k : string) :
  k ∉ ["chunk_id"; "chunk_size"; "chunking_strategy"; "has_context"] →
  chunk_metadata (tagged_chunk tag md i c) !! k = md !! k.
Proof.
  rewrite !not_elem_of_cons. intros (? & ? & ? & _).
  unfold tagged_chunk. simpl. by rewrite !lookup_insert_ne by congruence.
Qed.

Lemma contextual_chunk_frame (md : gmap string value) (summary : string)
    (total i : nat) (c k : string) :
  k ∉ ["chunk_id"; "chunk_size"; "chunking_strategy"; "has_context"] →
  chunk_metadata (contextual_chunk md summary total i c) !! k = md !! k.
Proof.
  rewrite !not_elem_of_cons. intros (? & ? & ? & ? & _).
  unfold contextual_chunk. simpl. by rewrite !lookup_insert_ne by congruence.
Qed.

Lemma well_numbered_retag (md : gmap string value) (i : nat) (c : chunk) :
  well_numbered md i c → well_numbered md i (retag_hybrid c).
Proof.
  intros (Hid & Hsize & Hframe). unfold well_numbered, retag_hybrid. simpl.
  rewrite !lookup_insert_ne by done. split; [done|]. split; [done|].
  intros k Hk. rewrite lookup_insert_ne; [by apply Hframe|].
  rewrite !not_elem_of_cons in Hk. destruct Hk as (_ & _ & Hk & _). congruence.
Qed.

Lemma tagged_chunk_well_numbered (tag : string) (md : gmap string value)
    (i : nat) (p : string) :
  well_numbered md i (tagged_chunk tag md i p).
Proof.
  split; [|split].
  - unfold tagged_chunk. simpl.
    rewrite !lookup_insert_ne by done. apply lookup_insert_eq.
  - unfold tagged_chunk. simpl.
    rewrite !lookup_insert_ne by done. apply lookup_insert_eq.
  - intros k. apply tagged_chunk_frame.
Qed.

Lemma contextual_chunk_well_numbered (md : gmap string value)
    (summary : string) (total i : nat) (p : string) :
  well_numbered md i (contextual_chunk md summary total i p).
Proof.
  split; [|split].
  - unfold contextual_chunk. simpl.
    rewrite !lookup_insert_ne by done. apply lookup_insert_eq.
  - unfold contextual_chunk. simpl.
    rewrite !lookup_insert_ne by done. apply lookup_insert_eq.
  - intros k. apply contextual_chunk_frame.
Qed.

Lemma chunk_text_records (s : ChunkingStrategy) (text : string)
    (md : gmap string value) (chunks : list chunk) :
  chunk_text s text md = Ok chunks →
  ∀ i c, chunks !! i = Some c → well_numbered md i c.
Proof.
  revert chunks. induction s as [sp|sp|sp|r IHr sm IHsm]; intros chunks Hrun i c Hi.
  - simpl in Hrun. unfold recursive_chunk_text in Hrun.
    destruct (sp text) as [pieces|e]; [|done]. injection Hrun as <-.
    rewrite list_lookup_imap in Hi.
    destruct (pieces !! i) as [p|]; [|done]. injection Hi as <-.
    apply tagged_chunk_well_numbered.
  - simpl in Hrun. unfold semantic_chunk_text in Hrun.
    destruct (sp text) as [pieces|e]; [|done]. injection Hrun as <-.
    rewrite list_lookup_imap in Hi.
    destruct (pieces !! i) as [p|]; [|done]. injection Hi as <-.
    apply tagged_chunk_well_numbered.
  - simpl in Hrun. unfold contextual_chunk_text in Hrun.
    destruct (sp text) as [pieces|e]; [|done]. injection Hrun as <-.
    rewrite list_lookup_imap in Hi.
    destruct (pieces !! i) as [p|]; [|done]. injection Hi as <-.
    apply contextual_chunk_well_numbered.
  - rewrite hybrid_chunk_text_unfold in Hrun.
    destruct (if decide (10000 < Str.len text)%Z
              then chunk_text sm text md else chunk_text r text md)
      as [cs|e] eqn:Hchosen; simpl in Hrun.
    + injection Hrun as <-. rewrite list_lookup_fmap in Hi.
      destruct (cs !! i) as [c0|] eqn:Hc0; [|done]. injection Hi as <-.
      apply well_numbered_retag.
      destruct (decide (10000 < Str.len text)%Z); eauto.
    + eauto.
Qed.

(** X1. Whatever the strategy (recursive, semantic, contextual, hybrid with
    any delegates), the records it returns are numbered 0, 1, 2, ... in
    order by [chunk_id], each carries in [chunk_size] the length of its own
    content, and every key of the document metadata other than the four a
    strategy writes is handed down unchanged. *)
Theorem chunk_ids_contiguous (s : ChunkingStrategy) (text : string)
    (md : gmap string value) (chunks : list chunk) :
  chunk_text s text md = Ok chunks →
  map (λ c, chunk_metadata c !! "chunk_id") chunks
  = map (λ i, Some (VInt (Z.of_nat i))) (seq 0 (length chunks))
  ∧ Forall (λ c, chunk_metadata c !! "chunk_size"
                 = Some (VInt (Str.len (chunk_content c)))) chunks
  ∧ Forall (λ c, ∀ k,
              k ∉ ["chunk_id"; "chunk_size"; "chunking_strategy"; "has_context"] →
              chunk_metadata c !! k = md !! k) chunks.
Proof.
  intros Hrun. pose proof (chunk_text_records s text md chunks Hrun) as Hrec.
  split; [|split].
  - apply list_eq. intros i. rewrite !list_lookup_fmap.
    destruct (chunks !! i) as [c|] eqn:Hi; simpl.
    + destruct (Hrec i c Hi) as (-> & _).
      apply lookup_lt_Some in Hi. by rewrite lookup_seq_lt.
    + apply lookup_ge_None in Hi. by rewrite lookup_seq_ge.
  - apply Forall_lookup. intros i c Hi. by destruct (Hrec i c Hi) as (_ & ? & _).
  - apply Forall_lookup. intros i c Hi. by destruct (Hrec i c Hi) as (_ & _ & ?).
Qed.

Lemma chunk_ids_contiguous_witness :
  map (λ c, chunk_metadata c !! "chunk_id")
      [retag_hybrid (tagged_chunk "recursive" Fixtures.md 0 "short")]
  = [Some (VInt 0)].
Proof.
  refine (proj1 (chunk_ids_contiguous
                   (HybridChunkingStrategy (RecursiveChunkingStrategy Fixtures.whole)
                      (SemanticChunkingStrategy Fixtures.failing))
                   "short" Fixtures.md _ _)).
  reflexivity.
Defined.

Lemma append_nil_r (s : string) : s ++ "" = s.
Proof. induction s as [|c s IH]; [done|]. by rewrite append_cons, IH. Qed.

Lemma append_assoc (s1 s2 s3 : string) : (s1 ++ s2) ++ s3 = s1 ++ s2 ++ s3.
Proof.
  induction s1 as [|c s1 IH]; [done|]. by rewrite !append_cons, IH.
Qed.

(** X2. The hybrid strategy changes metadata only: the contents of the
    records it returns are, in order, the pieces cut by the splitter that
    served the call, the semantic one for a text longer than 10000
    characters when it succeeds, the recursive one otherwise. *)
Theorem hybrid_keeps_pieces (recursive semantic : splitter) (text : string)
    (md : gmap string value) (chunks : list chunk) :
  chunk_text (HybridChunkingStrategy (RecursiveChunkingStrategy recursive)
                (SemanticChunkingStrategy semantic)) text md
  = Ok chunks →
  if decide (10000 < Str.len text)%Z
  then semantic text = Ok (map chunk_content chunks)
       ∨ (∃ e, semantic text = Raise e)
         ∧ recursive text = Ok (map chunk_content chunks)
  else recursive text = Ok (map chunk_content chunks).
Proof.
  assert (Hpieces : ∀ tag (pieces : list string),
            map chunk_content (imap (tagged_chunk tag md) pieces) = pieces).
  { intros tag pieces. apply list_eq. intros i.
    rewrite list_lookup_fmap, list_lookup_imap. by destruct (pieces !! i). }
  rewrite hybrid_chunk_text_unfold. simpl.
  unfold semantic_chunk_text, recursive_chunk_text.
  destruct (decide (10000 < Str.len text)%Z) as [Hlong|Hshort].
  - destruct (semantic text) as [pieces|e]; simpl.
    + intros [= <-]. left. by rewrite map_map, <- (Hpieces "semantic" pieces) at 1.
    + destruct (recursive text) as [pieces|e']; simpl; [|done].
      intros [= <-]. right. split; [by eexists|]. by rewrite Hpieces.
  - destruct (recursive text) as [pieces|e]; simpl; [|done].
    intros [= <-]. by rewrite map_map, <- (Hpieces "recursive" pieces) at 1.
Qed.

Lemma hybrid_keeps_pieces_witness :
  Fixtures.whole Fixtures.long_text
  = Ok (map chunk_content [tagged_chunk "recursive" Fixtures.md 0 Fixtures.long_text]).
Proof.
  pose proof (hybrid_keeps_pieces Fixtures.whole Fixtures.failing
                Fixtures.long_text Fixtures.md
                [tagged_chunk "recursive" Fixtures.md 0 Fixtures.long_text])
    as H.
  destruct (decide (10000 < Str.len Fixtures.long_text)%Z) as [_|Hn].
  - destruct H as [H|[_ H]]; [reflexivity|discriminate H|exact H].
  - exfalso. apply Hn. vm_compute. reflexivity.
Defined.

(** X3. The contextual strategy returns one record per piece of its
    splitter, in order. Each record's content is the context header followed
    by the piece, so it ends with the piece and is strictly longer; its
    [chunk_size] is the length of header and piece together, not of the
    piece; it is tagged "contextual" and marked [has_context]. *)
Theorem contextual_records_wrap_pieces (base_chunker : splitter) (text : string)
    (md : gmap string value) (chunks : list chunk) :
  chunk_text (ContextualChunkingStrategy base_chunker) text md = Ok chunks →
  ∃ pieces,
    base_chunker text = Ok pieces
    ∧ length chunks = length pieces
    ∧ ∀ i c, chunks !! i = Some c →
        ∃ p, pieces !! i = Some p
             ∧ Str.endswith (chunk_content c) p = true
             ∧ (Str.len p < Str.len (chunk_content c))%Z
             ∧ chunk_metadata c !! "chunk_size"
               = Some (VInt (Str.len (chunk_content c)))
             ∧ chunk_metadata c !! "chunking_strategy" = Some (VStr "contextual")
             ∧ chunk_metadata c !! "has_context" = Some (VBool true).
Proof.
  simpl. unfold contextual_chunk_text.
  destruct (base_chunker text) as [pieces|e]; simpl; [|done].
  intros [= <-]. exists pieces. split; [done|]. split; [by rewrite length_imap|].
  intros i c Hi. rewrite list_lookup_imap in Hi.
  destruct (pieces !! i) as [p|]; [|done]. injection Hi as <-.
  exists p. split; [done|]. unfold contextual_chunk. cbn [chunk_content chunk_metadata].
  split; [|split; [|split; [|split]]].
  - apply endswith_spec. unfold _add_context_to_chunk. by eexists.
  - unfold Str.len, _add_context_to_chunk. rewrite !length_append. simpl. lia.
  - rewrite !lookup_insert_ne by done. apply lookup_insert_eq.
  - rewrite !lookup_insert_ne by done. apply lookup_insert_eq.
  - apply lookup_insert_eq.
Qed.

Lemma contextual_records_wrap_pieces_witness :
  ∃ pieces,
    Fixtures.whole "One. Two" = Ok pieces
    ∧ length (imap (contextual_chunk Fixtures.md
                      (_create_document_summary "One. Two" Fixtures.md) 1)
                   ["One. Two"])
      = length pieces.
Proof.
  destruct (contextual_records_wrap_pieces Fixtures.whole "One. Two" Fixtures.md
              (imap (contextual_chunk Fixtures.md
                       (_create_document_summary "One. Two" Fixtures.md) 1)
                    ["One. Two"]))
    as (pieces & Hp & Hlen & _).
  - reflexivity.
  - exists pieces. by split.
Defined.

(** ** Document summary *)



Lemma join_cons (sep x : string) (l : list string) :
  l ≠ [] → Str.join sep (x :: l) = x ++ sep ++ Str.join sep l.
Proof. by destruct l. Qed.




(** ** Extraction and the pipeline *)

Lemma is_empty_iff (s : string) : Str.is_empty s = true ↔ s = "".
Proof. by destruct s. Qed.

Lemma join_middle (sep : string) (l1 : list string) (x : string)
    (l2 : list string) :
  ∃ pre post, Str.join sep (l1 ++ x :: l2) = pre ++ x ++ post.
Proof.
  induction l1 as [|y l1 (pre & post & IH)]; simpl app.
  - exists "". destruct l2 as [|z l2]; [exists ""; simpl; by rewrite append_nil_r|].
    rewrite join_cons by done. by eexists.
  - rewrite join_cons by (by destruct l1). rewrite IH.
    exists (y ++ sep ++ pre), post. by rewrite !append_assoc.
Qed.

Lemma concat_blank_pages (pages : list string) (k : nat) :
  Forall (λ p, Str.strip p = "") pages →
  concat (imap (λ n, PDFProcessor.page_entry (k + n)) pages) = [].
Proof.
  revert k. induction pages as [|p pages IH]; intros k Hblank; [done|].
  apply Forall_cons in Hblank as [Hp Hrest]. simpl.
  unfold PDFProcessor.page_entry at 1. rewrite Hp. simpl.
  rewrite <- (IH (S k) Hrest). f_equal. apply imap_ext. intros i x _. simpl.
  f_equal. lia.
Qed.

(** X5. [extract_text] drops the pages that are blank once stripped and
    numbers the others by their place in the file, blank pages counted: a
    document with no page or only blank pages gives the empty text, without
    an exception, and a page that is not blank appears in the text under the
    marker of its own page number. *)
Theorem extract_text_skips_blank_pages (fs : FileSystem) (file_path : Path)
    (pages : list string) :
  pdf_page_texts fs file_path = Ok pages →
  (Forall (λ p, Str.strip p = "") pages →
   PDFProcessor.extract_text fs file_path = Ok "")
  ∧ (∀ i p, pages !! i = Some p → Str.strip p ≠ "" →
       ∃ pre post,
         PDFProcessor.extract_text fs file_path
         = Ok (pre ++ (newline ++ "--- Page " ++ Str.of_nat (i + 1) ++ " ---"
                       ++ newline ++ p) ++ post)).
Proof.
  intros Hpages. unfold PDFProcessor.extract_text. rewrite Hpages. simpl.
  split.
  - intros Hblank.
    rewrite (imap_ext _ (λ n, PDFProcessor.page_entry (0 + n)) pages) by done.
    by rewrite concat_blank_pages.
  - intros i p Hi Hp.
    rewrite <- (take_drop_middle pages i p Hi), imap_app, concat_app.
    simpl. rewrite length_take_le by (apply lookup_lt_Some in Hi; lia).
    unfold PDFProcessor.page_entry at 2.
    destruct (Str.is_empty (Str.strip p)) eqn:He; [by apply is_empty_iff in He|].
    rewrite Nat.add_0_r. simpl app.
    destruct (join_middle newline (concat (imap PDFProcessor.page_entry (take i pages)))
                (newline ++ "--- Page " ++ Str.of_nat (i + 1) ++ " ---" ++ newline ++ p)
                (concat (imap (λ n, PDFProcessor.page_entry (i + S n)) (drop (S i) pages))))
      as (pre & post & Hj).
    exists pre, post. by rewrite <- Hj.
Qed.

Lemma extract_text_skips_blank_pages_witness :
  ∃ pre post,
    PDFProcessor.extract_text Fixtures.fs Fixtures.file
    = Ok (pre ++ (newline ++ "--- Page " ++ Str.of_nat (2 + 1) ++ " ---"
                  ++ newline ++ "third page") ++ post).
Proof.
  refine (proj2 (extract_text_skips_blank_pages Fixtures.fs Fixtures.file
                   ["first page"; "  "; "third page"] _) 2 "third page" _ _).
  - reflexivity.
  - reflexivity.
  - vm_compute. discriminate.
Defined.

Lemma pipeline_run (fs : FileSystem) (p : PDFProcessor.t) (file_path : Path)
    (chunks : list chunk) :
  PDFProcessor.process_pdf fs p file_path = Ok chunks →
  ∃ text file_size,
    PDFProcessor.extract_text fs file_path = Ok text
    ∧ stat_st_size fs file_path = Ok file_size
    ∧ chunk_text (PDFProcessor.chunking_strategy p) text
                 (PDFProcessor.document_metadata file_path file_size)
      = Ok chunks.
Proof.
  unfold PDFProcessor.process_pdf, PDFProcessor.chunk_document.
  destruct (PDFProcessor.extract_text fs file_path) as [text|e]; [|done].
  destruct (stat_st_size fs file_path) as [file_size|e]; [|done]. cbn.
  destruct (chunk_text _ text _) as [cs|e] eqn:Hc; [|done]. cbn.
  intros [= <-]. by exists text, file_size.
Qed.

(** X6. Every record the pipeline produces for a file, whatever the
    strategy, names its document: [filename] is the file's name,
    [file_path] its path, [file_size] the size the file system reported and
    [source_type] is "pdf". *)
Theorem pipeline_records_name_their_document (fs : FileSystem)
    (p : PDFProcessor.t) (file_path : Path) (chunks : list chunk) :
  PDFProcessor.process_pdf fs p file_path = Ok chunks →
  ∃ file_size,
    stat_st_size fs file_path = Ok file_size
    ∧ Forall (λ c,
        chunk_metadata c !! "filename" = Some (VStr (name file_path))
        ∧ chunk_metadata c !! "file_path" = Some (VStr (path_str file_path))
        ∧ chunk_metadata c !! "file_size" = Some (VInt file_size)
        ∧ chunk_metadata c !! "source_type" = Some (VStr "pdf")) chunks.
Proof.
  intros (text & file_size & _ & Hstat & Hchunk)%pipeline_run.
  exists file_size. split; [done|]. apply Forall_lookup. intros i c Hi.
  destruct (chunk_text_records _ _ _ _ Hchunk i c Hi) as (_ & _ & Hframe).
  assert (Hkey : ∀ k, k ∈ ["filename"; "file_path"; "file_size"; "source_type"] →
            k ∉ ["chunk_id"; "chunk_size"; "chunking_strategy"; "has_context"]).
  { intros k Hk. rewrite !not_elem_of_cons. rewrite !elem_of_cons in Hk.
    destruct Hk as [->|[->|[->|[->|Hk]]]]; [..|by apply elem_of_nil in Hk];
      repeat split; (discriminate || apply not_elem_of_nil). }
  rewrite !Hframe by (apply Hkey; rewrite !elem_of_cons; tauto).
  unfold PDFProcessor.document_metadata.
  repeat split; by rewrite ?lookup_insert_ne, ?lookup_insert_eq by done.
Qed.

Lemma pipeline_records_name_their_document_witness :
  ∃ file_size, stat_st_size Fixtures.fs Fixtures.file = Ok file_size.
Proof.
  destruct (pipeline_records_name_their_document Fixtures.fs
              (PDFQAAgent.pdf_processor
                 (Fixtures.agent (Fixtures.chroma_of []) BasicRetrieverStrategy))
              Fixtures.file
              (map retag_hybrid
                 (imap (tagged_chunk "recursive"
                          (PDFProcessor.document_metadata Fixtures.file 2048))
                       [(newline ++ "--- Page 1 ---" ++ newline ++ "first page"
                         ++ newline ++ newline ++ "--- Page 3 ---" ++ newline
                         ++ "third page")%string])))
    as (file_size & Hs & _).
  - vm_compute. reflexivity.
  - by exists file_size.
Defined.

Lemma of_Z_inj (a b : Z) : Str.of_Z a = Str.of_Z b → a = b.
Proof.
  unfold Str.of_Z. intros H. apply DecimalZ.to_int_inj.
  apply (f_equal NilEmpty.int_of_string) in H. rewrite !NilEmpty.isi in H.
  congruence.
Qed.

(** X7. The records the pipeline produces for a file always have the two
    keys the store's ids are built from, so [document_id] never raises on
    them; the ids are the file's name, an underscore and the record's
    number, and no two records of the file share an id. *)
Theorem pipeline_document_ids_unique (fs : FileSystem) (p : PDFProcessor.t)
    (file_path : Path) (chunks : list chunk) :
  PDFProcessor.process_pdf fs p file_path = Ok chunks →
  ∃ ids,
    mapM document_id chunks = Ok ids
    ∧ ids = map (λ i, name file_path ++ "_" ++ Str.of_Z (Z.of_nat i))
                (seq 0 (length chunks))
    ∧ NoDup ids.
Proof.
  intros (text & file_size & _ & _ & Hchunk)%pipeline_run.
  pose proof (chunk_text_records _ _ _ _ Hchunk) as Hrec.
  set (mk := λ i : nat, name file_path ++ "_" ++ Str.of_Z (Z.of_nat i)).
  assert (Hids : ∀ cs k,
            (∀ i c, cs !! i = Some c →
               document_id c = Ok (mk (k + i)%nat)) →
            mapM document_id cs = Ok (map mk (seq k (length cs)))).
  { induction cs as [|c cs IH]; intros k Hc; [done|]. simpl.
    rewrite (Hc 0%nat c eq_refl), Nat.add_0_r. cbn.
    rewrite (IH (S k)); [done|]. intros i c' Hi.
    rewrite (Hc (S i) c' Hi). do 2 f_equal. lia. }
  exists (map mk (seq 0 (length chunks))). split; [|split; [done|]].
  - apply Hids. intros i c Hi. destruct (Hrec i c Hi) as (Hid & _ & Hframe).
    unfold document_id. rewrite Hframe, Hid.
    + unfold PDFProcessor.document_metadata.
      by rewrite !lookup_insert_ne, lookup_insert_eq by done.
    + rewrite !not_elem_of_cons. repeat split; (discriminate || apply not_elem_of_nil).
  - apply NoDup_fmap_2; [|apply NoDup_seq].
    intros i j Hij. unfold mk in Hij.
    apply String.app_inj, String.app_inj, of_Z_inj in Hij. lia.
Qed.

Lemma pipeline_document_ids_unique_witness :
  ∃ ids,
    mapM document_id
      (map retag_hybrid
         (imap (tagged_chunk "recursive"
                  (PDFProcessor.document_metadata Fixtures.file 2048))
               [(newline ++ "--- Page 1 ---" ++ newline ++ "first page"
                 ++ newline ++ newline ++ "--- Page 3 ---" ++ newline
                 ++ "third page")%string]))
    = Ok ids
    ∧ NoDup ids.
Proof.
  destruct (pipeline_document_ids_unique Fixtures.fs
              (PDFQAAgent.pdf_processor
                 (Fixtures.agent (Fixtures.chroma_of []) BasicRetrieverStrategy))
              Fixtures.file
              (map retag_hybrid
                 (imap (tagged_chunk "recursive"
                          (PDFProcessor.document_metadata Fixtures.file 2048))
                       [(newline ++ "--- Page 1 ---" ++ newline ++ "first page"
                         ++ newline ++ newline ++ "--- Page 3 ---" ++ newline
                         ++ "third page")%string])))
    as (ids & Hm & _ & Hnd).
  - vm_compute. reflexivity.
  - by exists ids.
Defined.

(** ** Vector store and factories *)

Lemma mapM_document_id_missing (documents : list chunk) :
  Exists (λ d, chunk_metadata d !! "filename" = None
               ∨ chunk_metadata d !! "chunk_id" = None) documents →
  ∃ k, k ∈ ["filename"; "chunk_id"] ∧ mapM document_id documents = Raise (KeyError k).
Proof.
  induction documents as [|d documents IH]; intros Hex.
  - by apply Exists_nil in Hex.
  - change (mapM document_id (d :: documents))
      with (y ← document_id d; k ← mapM document_id documents; mret (y :: k)).
    destruct (chunk_metadata d !! "filename") as [f|] eqn:Hf.
    + destruct (chunk_metadata d !! "chunk_id") as [i|] eqn:Hi.
      * apply Exists_cons in Hex as [[Hd|Hd]|Hex]; [congruence|congruence|].
        destruct (IH Hex) as (k & Hk & Hm). exists k. split; [done|].
        assert (Hd : document_id d = Ok (str_of_value f ++ "_" ++ str_of_value i))
          by (unfold document_id; by rewrite Hf, Hi).
        by rewrite Hd, Hm.
      * exists "chunk_id". split; [rewrite !elem_of_cons; tauto|].
        assert (Hd : document_id d = Raise (KeyError "chunk_id"))
          by (unfold document_id; by rewrite Hf, Hi).
        by rewrite Hd.
    + exists "filename". split; [by left|].
      assert (Hd : document_id d = Raise (KeyError "filename"))
        by (unfold document_id; by rewrite Hf).
      by rewrite Hd.
Qed.

(** X8. [ChromaVectorStore.add_documents] returns at once, without an
    exception, for an empty list, whatever the state of the embedding model
    and the collection. And for documents whose filename and chunk_id, where
    present, are strings, booleans or integers of at most 4300 digits, so
    that building an id cannot fail on rendering them: when a document
    lacks the [filename] or the [chunk_id] key, [add_documents] raises the
    [KeyError] of that key, again whatever the embedding model and the
    collection would answer, and neither of them is called. *)
Theorem add_documents_edges (c : Chroma) (documents : list chunk) :
  ChromaVectorStore_add_documents c [] = Ok ()
  ∧ (Forall id_renders documents →
     Exists (λ d, chunk_metadata d !! "filename" = None
                  ∨ chunk_metadata d !! "chunk_id" = None) documents →
     ∃ k, k ∈ ["filename"; "chunk_id"]
          ∧ ChromaVectorStore_add_documents c documents = Raise (KeyError k)
          ∧ ∀ c', ChromaVectorStore_add_documents c' documents
                  = Raise (KeyError k)).
Proof.
  split; [reflexivity|]. intros _ Hex.
  destruct (mapM_document_id_missing documents Hex) as (k & Hk & Hm).
  exists k. split; [done|].
  assert (Hany : ∀ c', ChromaVectorStore_add_documents c' documents
                       = Raise (KeyError k)).
  { intros c'. unfold ChromaVectorStore_add_documents.
    destruct documents as [|d documents]; [by apply Exists_nil in Hex|].
    by rewrite Hm. }
  split; [apply Hany|exact Hany].
Qed.

Lemma add_documents_edges_witness :
  ∃ k, k ∈ ["filename"; "chunk_id"]
       ∧ ChromaVectorStore_add_documents (Fixtures.chroma_of [])
           [Chunk "first" {["filename" := VStr "a.pdf"; "chunk_id" := VInt 0]};
            Chunk "second" {["filename" := VStr "a.pdf"]}]
         = Raise (KeyError k).
Proof.
  destruct (add_documents_edges (Fixtures.chroma_of [])
              [Chunk "first" {["filename" := VStr "a.pdf"; "chunk_id" := VInt 0]};
               Chunk "second" {["filename" := VStr "a.pdf"]}])
    as (_ & Hmissing).
  destruct Hmissing as (k & Hk & Hraise & _).
  - repeat constructor; intros key v Hkey Hv;
      (apply elem_of_cons in Hkey as [->|Hkey];
       [|apply list_elem_of_singleton in Hkey as ->]);
      vm_compute in Hv; try discriminate Hv;
      injection Hv as <-; try exact I; by vm_compute.
  - apply Exists_cons_tl, Exists_cons_hd. by right.
  - by exists k.
Defined.

(** X9. Unlike the strategy factories, [create_processor] rejects what it
    does not know: for any file type other than "pdf" it raises with the
    message "Unsupported file type: " followed by the type, before any
    constructor is called; for "pdf" it builds a [PDFProcessor] through the
    chunking factory, with the strategy "hybrid" when none is given, so an
    unknown chunking tag is accepted there. *)
Theorem create_processor_rejects_unknown_types (st : Settings) (L : Libraries)
    (file_type : string) (chunking_strategy : option string) :
  (file_type ≠ "pdf" →
   create_processor st L file_type chunking_strategy
   = Raise (LibraryError ("Unsupported file type: " ++ file_type)))
  ∧ create_processor st L "pdf" None = PDFProcessor.new st L "hybrid"
  ∧ (∀ tag, tag ∉ ["recursive"; "semantic"; "contextual"; "hybrid"] →
       create_processor st L "pdf" (Some tag)
       = (s ← new_RecursiveChunkingStrategy st L;
          mret {| PDFProcessor.chunking_strategy := s |})).
Proof.
  unfold create_processor, processors. split; [|split].
  - intros Hne. by rewrite lookup_singleton_ne.
  - by rewrite lookup_singleton_eq.
  - intros tag Htag. rewrite lookup_singleton_eq. simpl.
    unfold PDFProcessor.new. rewrite create_strategy_class.
    rewrite !not_elem_of_cons in Htag. destruct Htag as (? & ? & ? & ? & _).
    by repeat case_decide.
Qed.

(** X10. Statistics never fail and never name another collection: whether
    the collection's [count()] answers or raises, [get_collection_stats]
    and the agent's [get_knowledge_base_stats] return the configured
    collection name, with the count answered or 0; the agent's own fallback
    record, named "unknown", is never returned for this store. *)
Theorem stats_never_fail (w : World) (self : PDFQAAgent.t)
    (collection_count : result Z) :
  PDFQAAgent.get_knowledge_base_stats w self collection_count
  = ChromaVectorStore_get_collection_stats (settings w) collection_count
  ∧ ∃ n,
      ChromaVectorStore_get_collection_stats (settings w) collection_count
      = Ok {| document_count := n;
              stats_collection_name := collection_name (settings w) |}
      ∧ (∀ e, collection_count = Raise e → n = 0%Z)
      ∧ (∀ m, collection_count = Ok m → n = m).
Proof.
  unfold PDFQAAgent.get_knowledge_base_stats,
    ChromaVectorStore_get_collection_stats.
  destruct collection_count as [m|e]; simpl.
  - split; [done|]. exists m. split; [done|]. split; [done|]. by intros ? [= ->].
  - split; [done|]. exists 0%Z. by repeat split.
Qed.

(** ** Retrieval: totality, fallbacks and order *)

Lemma search_all_trace_length (vs : VectorStore) (queries : list string)
    (acc : list snippet) :
  (length (trace (search_all vs queries acc)) ≤ length queries)%nat
  ∧ (queries ≠ [] → (1 ≤ length (trace (search_all vs queries acc)))%nat).
Proof.
  revert acc. induction queries as [|q queries IH]; intros acc.
  - by split.
  - simpl. unfold similarity_search. run_exec.
    destruct (on_similarity_search vs q 3) as [results|e]; simpl.
    + destruct (IH (acc ++ results)%list) as [Hle _].
      destruct (search_all vs queries (acc ++ results)) as [t r]. simpl in *.
      split; [lia|]. intros _. lia.
    + split; [lia|]. intros _. lia.
Qed.

Lemma expand_query_length (query : string) :
  (1 ≤ length (_expand_query query) ≤ 3)%nat.
Proof.
  unfold _expand_query.
  destruct (negb (Str.endswith query "?")),
    (negb (Str.startswith_any (Str.lower query) interrogatives)); simpl; lia.
Qed.

(** X11. No retrieval strategy lets an exception escape, whatever the store
    does; the only calls a strategy makes are similarity searches, at least
    one and at most four of them (the three variants of the contextual
    strategy and one fallback search). *)
Theorem retrieve_is_total (hash : string → Z) (s : RetrieverStrategy)
    (query : string) (vs : VectorStore) :
  (∃ docs, outcome (retrieve hash s query vs) = Ok docs)
  ∧ Forall is_search (trace (retrieve hash s query vs))
  ∧ (1 ≤ length (trace (retrieve hash s query vs)) ≤ 4)%nat.
Proof.
  destruct (retrieve_searches_only hash s query vs) as [Hsearch Hok].
  split; [done|]. split; [done|].
  destruct s as [|sw kw|]; unfold retrieve.
  - rewrite basic_retrieve_run. simpl. lia.
  - unfold hybrid_retrieve. rewrite basic_retrieve_run.
    unfold similarity_search. run_exec.
    destruct (on_similarity_search vs query 8) as [results|e]; simpl; [|lia].
    destruct (mapM _ results); simpl; lia.
  - unfold contextual_retrieve. rewrite basic_retrieve_run.
    pose proof (search_all_trace_length vs (_expand_query query) []) as [Hle Hge].
    pose proof (expand_query_length query) as Hexp.
    assert (Hne : _expand_query query ≠ []).
    { intros Hnil. rewrite Hnil in Hexp. simpl in Hexp. lia. }
    specialize (Hge Hne). run_exec.
    destruct (search_all vs (_expand_query query) []) as [t [merged|e]];
      simpl in *.
    + destruct (_rank_results _ query); simpl;
        rewrite ?app_nil_r, ?length_app; simpl; lia.
    + rewrite length_app. simpl. lia.
Qed.

(** X12. Both ranking strategies fall back on the basic one when the store
    fails them. If the top-8 search of the hybrid strategy raises, or the
    first search of the contextual strategy (the one for the query itself)
    raises, the strategy makes the basic strategy's top-5 search and returns
    its result: the snippets found, or nothing if that search raises too. *)
Theorem ranking_strategies_fall_back (hash : string → Z) (query : string)
    (vs : VectorStore) :
  let basic :=
    match on_similarity_search vs query 5 with
    | Ok results => results
    | Raise _ => []
    end in
  (∀ e, on_similarity_search vs query 8 = Raise e →
     retrieve hash (HybridRetrieverStrategy 0.7 0.3) query vs
     = ([SimilaritySearch query 8; SimilaritySearch query 5], Ok basic))
  ∧ (∀ e, on_similarity_search vs query 3 = Raise e →
     retrieve hash ContextualRetrieverStrategy query vs
     = ([SimilaritySearch query 3; SimilaritySearch query 5], Ok basic)).
Proof.
  intros basic. split; intros e He; unfold retrieve.
  - unfold hybrid_retrieve. rewrite basic_retrieve_run.
    unfold similarity_search. run_exec. by rewrite He.
  - unfold contextual_retrieve. rewrite basic_retrieve_run.
    assert (Hs : search_all vs (_expand_query query) []
                 = ([SimilaritySearch query 3], Raise e)).
    { unfold _expand_query.
      destruct (negb (Str.endswith query "?")),
        (negb (Str.startswith_any (Str.lower query) interrogatives));
        simpl; unfold similarity_search; run_exec; by rewrite He. }
    rewrite Hs. by run_exec.
Qed.

Lemma hybrid_retrieve_run (query : string) (vs : VectorStore)
    (candidates : list snippet) :
  on_similarity_search vs query 8 = Ok candidates →
  hybrid_retrieve 0.7 0.3 query vs
  = ([SimilaritySearch query 8],
     Ok (take 5 (sorted_reverse (λ x, score_or_zero (hybrid_score x))
                   (map (λ d, set_hybrid_score (Spec.hybrid_score query d) d)
                        candidates)))).
Proof.
  intros Hsearch. unfold hybrid_retrieve, similarity_search. run_exec.
  rewrite Hsearch.
  by rewrite (mapM_Ok _ (λ d, set_hybrid_score (Spec.hybrid_score query d) d))
    by (intros; apply hybrid_annotate_spec).
Qed.

(** X13. Whatever the scores, NaN included, the hybrid strategy invents and
    loses nothing beyond its cut: when the store answers with n candidates it
    returns min(5, n) snippets, each of them one of the candidates with its
    content, metadata and similarity untouched and its hybrid score added. *)
Theorem hybrid_returns_candidates (hash : string → Z) (query : string)
    (vs : VectorStore) (candidates : list snippet) :
  on_similarity_search vs query 8 = Ok candidates →
  ∃ results,
    outcome (retrieve hash (HybridRetrieverStrategy 0.7 0.3) query vs) = Ok results
    ∧ length results = (length candidates `min` 5)%nat
    ∧ ∀ d, d ∈ results →
        ∃ c, c ∈ candidates
             ∧ content d = content c ∧ metadata d = metadata c
             ∧ similarity_score d = similarity_score c
             ∧ hybrid_score d = Some (Spec.hybrid_score query c).
Proof.
  intros Hsearch. unfold retrieve. rewrite (hybrid_retrieve_run _ _ _ Hsearch).
  eexists. split; [reflexivity|]. split.
  - rewrite length_take, sorted_reverse_perm, length_map. lia.
  - intros d Hd. apply elem_of_take in Hd as (i & Hd & _).
    apply list_elem_of_lookup_2 in Hd. rewrite sorted_reverse_perm in Hd.
    apply list_elem_of_fmap in Hd as (c & -> & Hc). by exists c.
Qed.

Lemma hybrid_returns_candidates_witness :
  ∃ results,
    outcome (retrieve (λ _, 0%Z) (HybridRetrieverStrategy 0.7 0.3) "alpha beta"
               (Fixtures.store_of Fixtures.corpus)) = Ok results
    ∧ length results = 4%nat.
Proof.
  destruct (hybrid_returns_candidates (λ _, 0%Z) "alpha beta"
              (Fixtures.store_of Fixtures.corpus) Fixtures.corpus)
    as (results & Hr & Hlen & _).
  - reflexivity.
  - exists results. by split.
Defined.

Lemma sorted_reverse_fixed {A : Type} (key : A → float) (l : list A) :
  descending key l → sorted_reverse key l = l.
Proof.
  induction 1 as [|x l Hsorted IH Hx]; [done|].
  unfold sorted_reverse in *. simpl. rewrite IH.
  destruct l as [|y l]; [done|]. simpl.
  apply Forall_cons in Hx as [Hxy _]. by rewrite Hxy.
Qed.

(** X14. Ranking is stable: it moves a snippet only behind a later one
    that scores strictly more. So when no candidate is followed by one with
    a greater hybrid score, ties included, the hybrid strategy returns the
    first 5 candidates in the store's order, each with its score added. *)
Theorem hybrid_keeps_store_order (hash : string → Z) (query : string)
    (vs : VectorStore) (candidates : list snippet) :
  on_similarity_search vs query 8 = Ok candidates →
  descending (Spec.hybrid_score query) candidates →
  outcome (retrieve hash (HybridRetrieverStrategy 0.7 0.3) query vs)
  = Ok (take 5 (map (λ d, set_hybrid_score (Spec.hybrid_score query d) d)
                    candidates)).
Proof.
  intros Hsearch Hdesc. unfold retrieve.
  rewrite (hybrid_retrieve_run _ _ _ Hsearch). unfold outcome. simpl.
  rewrite sorted_reverse_fixed; [done|].
  unfold descending in *.
  clear Hsearch.
  induction Hdesc as [|c l Hsorted IH Hc]; simpl; constructor; [done|].
  apply Forall_forall. intros d Hd.
  apply list_elem_of_fmap in Hd as (c' & -> & Hc').
  rewrite Forall_forall in Hc. exact (Hc c' Hc').
Qed.

Lemma hybrid_keeps_store_order_witness :
  outcome (retrieve (λ _, 0%Z) (HybridRetrieverStrategy 0.7 0.3) "delta"
             (Fixtures.store_of [Fixtures.doc "alpha" 0.5; Fixtures.doc "beta" 0.5]))
  = Ok (take 5 (map (λ d, set_hybrid_score (Spec.hybrid_score "delta" d) d)
                    [Fixtures.doc "alpha" 0.5; Fixtures.doc "beta" 0.5])).
Proof.
  apply (hybrid_keeps_store_order (λ _, 0%Z) "delta"
           (Fixtures.store_of [Fixtures.doc "alpha" 0.5; Fixtures.doc "beta" 0.5])).
  - reflexivity.
  - repeat constructor.
Defined.

(** ** Contextual retrieval: what deduplication keeps *)

Section DedupOrder.
Variable hash : string → Z.

Let key (d : snippet) : Z := hash (Str.take 100 (content d)).

(** The hashes seen after the loop are exactly those of the snippets read. *)
Lemma dedup_seen (results : list snippet) :
  let out := foldl (dedup_step hash) ([], ∅) results in
  ∀ h, h ∈ out.2 ↔ h ∈ map key results.
Proof.
  destruct (dedup_foldl hash results ([], ∅))
    as ([_ Hseen] & (kept & Hk & Hsub) & Hcov & _).
  { split; [constructor|]. intros h. simpl. rewrite elem_of_empty.
    split; [done|]. by intros ?%elem_of_nil. }
  intros out h. split.
  - intros Hh. apply Hseen in Hh. subst out. rewrite Hk in Hh. simpl in Hh.
    apply list_elem_of_fmap in Hh as (d & -> & Hd).
    apply list_elem_of_fmap. exists d. split; [done|].
    by eapply elem_of_sublist.
  - intros (d & -> & Hd)%list_elem_of_fmap. by apply Hcov.
Qed.

(** Reading one more snippet: it is appended unless the hash of its first
    100 characters is that of a snippet read before. *)
Lemma deduplicate_results_snoc (results : list snippet) (d : snippet) :
  _deduplicate_results hash (results ++ [d])
  = if decide (key d ∈ map key results)
    then _deduplicate_results hash results
    else (_deduplicate_results hash results ++ [d])%list.
Proof.
  unfold _deduplicate_results. rewrite foldl_app. simpl.
  pose proof (dedup_seen results (key d)) as Hseen. simpl in Hseen.
  unfold dedup_step at 1. fold (key d).
  destruct (decide (key d ∉ _)) as [Hnew|Hold];
    destruct (decide (key d ∈ map key results)) as [Hin|Hout]; simpl.
  - by apply Hseen in Hin.
  - done.
  - done.
  - apply dec_stable in Hold. by apply Hseen in Hold.
Qed.

Lemma deduplicate_results_keys (results : list snippet) :
  NoDup (map key (_deduplicate_results hash results)).
Proof.
  unfold _deduplicate_results.
  destruct (dedup_foldl hash results ([], ∅)) as ([Hnd _] & _).
  { split; [constructor|]. intros h. simpl. rewrite elem_of_empty.
    split; [done|]. by intros ?%elem_of_nil. }
  exact Hnd.
Qed.

(** X15. Deduplication changes a result list exactly when two of its snippets
    hash alike on their first 100 characters, and deduplicating twice is
    deduplicating once. *)
Theorem deduplicate_results_idempotent (results : list snippet) :
  (NoDup (map (λ d, hash (Str.take 100 (content d))) results)
   ↔ _deduplicate_results hash results = results)
  ∧ _deduplicate_results hash (_deduplicate_results hash results)
    = _deduplicate_results hash results.
Proof.
  assert (Hfix : ∀ l, NoDup (map key l) → _deduplicate_results hash l = l).
  { induction l as [|d l IH] using rev_ind; [done|].
    rewrite map_app. simpl. intros Hnd.
    apply NoDup_app in Hnd as (Hl & Hd & _).
    rewrite deduplicate_results_snoc.
    destruct (decide (key d ∈ map key l)) as [Hin|_].
    - exfalso. apply (Hd (key d) Hin). by left.
    - by rewrite (IH Hl). }
  split; [split|].
  - apply Hfix.
  - intros <-. apply deduplicate_results_keys.
  - apply Hfix, deduplicate_results_keys.
Qed.

(** X16. A snippet is dropped as soon as the hash of its first 100 characters
    is that of a snippet before it, whatever the rest of its content: the
    result is the same as if it had not been retrieved. *)
Theorem deduplicate_results_drops_later (before after : list snippet)
    (d d' : snippet) :
  d ∈ before →
  hash (Str.take 100 (content d')) = hash (Str.take 100 (content d)) →
  _deduplicate_results hash (before ++ d' :: after)
  = _deduplicate_results hash (before ++ after).
Proof.
  intros Hd Hkey. unfold _deduplicate_results. rewrite !foldl_app. simpl.
  assert (Hskip : dedup_step hash (foldl (dedup_step hash) ([], ∅) before) d'
                  = foldl (dedup_step hash) ([], ∅) before).
  { unfold dedup_step at 1.
    destruct (decide _) as [Hnew|]; [|done]. exfalso. apply Hnew.
    apply dedup_seen. rewrite Hkey.
    apply list_elem_of_fmap. by exists d. }
  by rewrite Hskip.
Qed.
End DedupOrder.

Lemma deduplicate_results_drops_later_witness :
  _deduplicate_results (λ s, Z.of_nat (String.length s))
    ([Fixtures.doc "alpha" 0.5] ++ Fixtures.doc "gamma" 0.9 :: [Fixtures.doc "beta" 0.1])
  = _deduplicate_results (λ s, Z.of_nat (String.length s))
      ([Fixtures.doc "alpha" 0.5] ++ [Fixtures.doc "beta" 0.1]).
Proof.
  apply (deduplicate_results_drops_later _ _ _ (Fixtures.doc "alpha" 0.5)).
  - by left.
  - reflexivity.
Defined.

(** ** Contextual retrieval: the searches it makes *)

Lemma search_all_run (vs : VectorStore) (queries : list string)
    (answers : list (list snippet)) (acc : list snippet) :
  Forall2 (λ q r, on_similarity_search vs q 3 = Ok r) queries answers →
  search_all vs queries acc
  = (map (λ q, SimilaritySearch q 3) queries, Ok (acc ++ concat answers)%list).
Proof.
  intros Hall. revert acc.
  induction Hall as [|q r queries answers Hq _ IH]; intros acc.
  - simpl. by rewrite app_nil_r.
  - simpl. unfold similarity_search. run_exec. rewrite Hq.
    specialize (IH (acc ++ r)%list).
    destruct (search_all vs queries (acc ++ r)) as [t res].
    injection IH as -> ->. by rewrite app_assoc.
Qed.

Lemma search_all_failure (vs : VectorStore) (done rest : list string)
    (q : string) (answers : list (list snippet)) (e : exn)
    (acc : list snippet) :
  Forall2 (λ q r, on_similarity_search vs q 3 = Ok r) done answers →
  on_similarity_search vs q 3 = Raise e →
  search_all vs (done ++ q :: rest) acc
  = (map (λ q, SimilaritySearch q 3) (done ++ [q]), Raise e).
Proof.
  intros Hall Hq. revert acc.
  induction Hall as [|q' r done answers Hq' _ IH]; intros acc.
  - simpl. unfold similarity_search. run_exec. by rewrite Hq.
  - simpl. unfold similarity_search. run_exec. rewrite Hq'.
    specialize (IH (acc ++ r)%list).
    destruct (search_all vs (done ++ q :: rest) (acc ++ r)) as [t res].
    by injection IH as -> ->.
Qed.

(** X17. When the store answers every variant of the query, the contextual
    strategy makes exactly one top-3 search per variant, in the order of the
    expansion, and ranks the deduplicated concatenation of the answers in
    that order; for a query with a term it returns the first 5 of them. *)
Theorem contextual_searches_every_variant (hash : string → Z) (query : string)
    (vs : VectorStore) (answers : list (list snippet)) :
  Forall2 (λ q r, on_similarity_search vs q 3 = Ok r) (_expand_query query) answers →
  terms query ≠ ∅ →
  retrieve hash ContextualRetrieverStrategy query vs
  = (map (λ q, SimilaritySearch q 3) (_expand_query query),
     Ok (take 5
           (sorted_reverse (λ x, score_or_zero (relevance_score x))
              (map (λ d, set_relevance_score (Spec.overlap_ratio query d) d)
                   (_deduplicate_results hash (concat answers)))))).
Proof.
  intros Hall Hne. unfold retrieve.
  pose proof (search_all_run vs _ _ [] Hall) as Hrun. simpl in Hrun.
  rewrite (contextual_retrieve_unfold _ _ _ _ _ Hrun).
  by rewrite rank_results_Ok.
Qed.

Lemma contextual_searches_every_variant_witness :
  trace (retrieve (λ s, Z.of_nat (String.length s)) ContextualRetrieverStrategy
           "alpha" (Fixtures.store_of Fixtures.corpus))
  = [SimilaritySearch "alpha" 3; SimilaritySearch "alpha?" 3;
     SimilaritySearch "what is alpha" 3].
Proof.
  rewrite (contextual_searches_every_variant _ "alpha"
             (Fixtures.store_of Fixtures.corpus)
             [take 3 Fixtures.corpus; take 3 Fixtures.corpus; take 3 Fixtures.corpus]).
  - reflexivity.
  - repeat constructor.
  - by vm_compute.
Defined.

(** X18. When the search of one variant raises, the contextual strategy
    searches no later variant and throws away what the earlier ones
    returned: it makes one top-5 search of the original query and returns
    its results unranked, or [] if that search raises too. *)
Theorem contextual_discards_partial_results (hash : string → Z)
    (query : string) (vs : VectorStore) (done rest : list string) (q : string)
    (answers : list (list snippet)) (e : exn) :
  _expand_query query = (done ++ q :: rest)%list →
  Forall2 (λ q r, on_similarity_search vs q 3 = Ok r) done answers →
  on_similarity_search vs q 3 = Raise e →
  retrieve hash ContextualRetrieverStrategy query vs
  = ((map (λ q, SimilaritySearch q 3) (done ++ [q])
      ++ [SimilaritySearch query 5])%list,
     Ok (match on_similarity_search vs query 5 with
         | Ok results => results
         | Raise _ => []
         end)).
Proof.
  intros Hexp Hall Hq. unfold retrieve, contextual_retrieve.
  rewrite Hexp, (search_all_failure vs _ rest _ _ e [] Hall Hq).
  run_exec. by rewrite basic_retrieve_run.
Qed.

Lemma contextual_discards_partial_results_witness :
  retrieve (λ s, Z.of_nat (String.length s)) ContextualRetrieverStrategy
    "alpha" (Fixtures.store_only "alpha" Fixtures.corpus)
  = ([SimilaritySearch "alpha" 3; SimilaritySearch "alpha?" 3;
      SimilaritySearch "alpha" 5],
     Ok Fixtures.corpus).
Proof.
  apply (contextual_discards_partial_results _ "alpha"
           (Fixtures.store_only "alpha" Fixtures.corpus)
           ["alpha"] ["what is alpha"] "alpha?" [take 3 Fixtures.corpus]
           (LibraryError "unknown query")).
  - reflexivity.
  - repeat constructor.
  - reflexivity.
Defined.

(** ** The language model service *)

Lemma join_empty_cons (x : string) (l : list string) :
  Str.join "" (x :: l) = x ++ Str.join "" l.
Proof. destruct l; [simpl; by rewrite append_nil_r|reflexivity]. Qed.

Lemma join_empty_app (l1 l2 : list string) :
  Str.join "" (l1 ++ l2) = Str.join "" l1 ++ Str.join "" l2.
Proof.
  induction l1 as [|x l1 IH]; [reflexivity|].
  change ((x :: l1) ++ l2)%list with (x :: (l1 ++ l2))%list.
  by rewrite !join_empty_cons, IH, append_assoc.
Qed.

(** Leaving out the chunks without content, or with an empty one, does not
    change the text the chunks spell. *)
Lemma join_spoken (chunks : list (option string)) :
  Str.join "" (omap GroqLLMService.spoken chunks)
  = Str.join "" (map (default "") chunks).
Proof.
  induction chunks as [|[c|] chunks IH]; [reflexivity| |].
  - change (omap GroqLLMService.spoken (Some c :: chunks))
      with (match (if Str.is_empty c then None else Some c) with
            | Some f => f :: omap GroqLLMService.spoken chunks
            | None => omap GroqLLMService.spoken chunks
            end).
    change (map (default "") (Some c :: chunks))
      with (c :: map (default "") chunks).
    destruct (Str.is_empty c) eqn:Hc.
    + apply is_empty_iff in Hc as ->. by rewrite join_empty_cons, IH.
    + by rewrite !join_empty_cons, IH.
  - change (omap GroqLLMService.spoken (None :: chunks))
      with (omap GroqLLMService.spoken chunks).
    change (map (default "") (None :: chunks))
      with ("" :: map (default "") chunks).
    by rewrite join_empty_cons, IH.
Qed.

Lemma generate_response_join (astream : chat_stream) (prompt context : string)
    (chunks : list (option string)) (failure : option exn) :
  astream [SystemMessage GroqLLMService._create_system_prompt;
           HumanMessage (GroqLLMService._create_user_prompt prompt context)]
  = (chunks, failure) →
  Str.join "" (GroqLLMService.generate_response astream prompt context)
  = Str.join "" (map (default "") chunks)
    ++ match failure with
       | Some e => "Error: " ++ exn_message e
       | None => ""
       end.
Proof.
  intros Hstream. unfold GroqLLMService.generate_response. rewrite Hstream.
  rewrite join_empty_app, join_spoken. by destruct failure.
Qed.

(** X19. Reading [generate_response] to its end never raises and yields no
    empty fragment: the fragments are the non-empty contents of the model's
    chunks, in order, and when the stream breaks they are followed by one
    last fragment, the text Error: and the exception's message. Together
    they spell what the chunks spell, then that error text. *)
Theorem generate_response_fragments (astream : chat_stream)
    (prompt context : string) :
  let answer :=
    astream [SystemMessage GroqLLMService._create_system_prompt;
             HumanMessage (GroqLLMService._create_user_prompt prompt context)] in
  let fragments := GroqLLMService.generate_response astream prompt context in
  Forall (λ f, f ≠ "") fragments
  ∧ (∀ e, answer.2 = Some e → last fragments = Some ("Error: " ++ exn_message e))
  ∧ (answer.2 = None → ∀ f, f ∈ fragments ↔ f ≠ "" ∧ Some f ∈ answer.1)
  ∧ Str.join "" fragments
    = Str.join "" (map (default "") answer.1)
      ++ match answer.2 with
         | Some e => "Error: " ++ exn_message e
         | None => ""
         end.
Proof.
  intros answer fragments.
  assert (Hspoken : ∀ f, f ∈ omap GroqLLMService.spoken answer.1
                         ↔ f ≠ "" ∧ Some f ∈ answer.1).
  { intros f. rewrite list_elem_of_omap. split.
    - intros ([c|] & Hin & Hc); [|discriminate Hc]. simpl in Hc.
      destruct (Str.is_empty c) eqn:He; [discriminate Hc|].
      injection Hc as ->. split; [|done].
      intros ->. discriminate He.
    - intros [Hne Hin]. exists (Some f). split; [done|]. simpl.
      destruct (Str.is_empty f) eqn:He; [|done].
      by apply is_empty_iff in He. }
  split; [|split; [|split]].
  - subst fragments. unfold GroqLLMService.generate_response. fold answer.
    destruct answer as [chunks failure]. apply Forall_app. split.
    + apply Forall_forall. intros f Hf. by apply Hspoken in Hf as [Hne _].
    + destruct failure as [e|]; constructor; [|constructor].
      intros Hempty. apply (f_equal String.length) in Hempty.
      rewrite length_append in Hempty. simpl in Hempty. lia.
  - intros e He. subst fragments. unfold GroqLLMService.generate_response.
    fold answer. destruct answer as [chunks failure]. simpl in He. subst failure.
    by rewrite last_snoc.
  - intros He f. subst fragments. unfold GroqLLMService.generate_response.
    fold answer. destruct answer as [chunks failure]. simpl in He. subst failure.
    rewrite app_nil_r. apply Hspoken.
  - apply generate_response_join. subst answer. apply surjective_pairing.
Qed.




(** ** The agent's answers *)

(** X21. When the provider's generator ends without raising, the answer of
    [ask_question] is the concatenation of what [ask_question_stream] yields
    for the same question, and both make the same calls. *)
Theorem ask_question_joins_the_stream (w : World) (self : PDFQAAgent.t)
    (question : string) :
  (∀ context,
     (on_generate_response (PDFQAAgent.llm_service self) question context).2 = None) →
  PDFQAAgent.ask_question w self question
  = ((PDFQAAgent.ask_question_stream w self question).1,
     Ok (Str.join "" (PDFQAAgent.ask_question_stream w self question).2)).
Proof.
  intros Hquiet.
  unfold PDFQAAgent.ask_question, PDFQAAgent.ask_question_stream.
  destruct (retrieve _ _ question _) as [tr [[|d docs]|e]]; run_exec.
  - simpl. by rewrite app_nil_r.
  - unfold PDFQAAgent.collect_response.
    specialize (Hquiet (PDFQAAgent._prepare_context w (d :: docs))).
    destruct (on_generate_response _ question _) as [fragments failure].
    simpl in Hquiet. subst failure. run_exec. simpl.
    by rewrite !app_nil_r.
  - simpl. by rewrite app_nil_r.
Qed.

Lemma ask_question_joins_the_stream_witness :
  PDFQAAgent.ask_question (Fixtures.world Fixtures.fs)
    (Fixtures.agent_with (Fixtures.chroma_of [("alpha", Fixtures.md, 0.25%float)])
       Fixtures.llm) "alpha"
  = ((PDFQAAgent.ask_question_stream (Fixtures.world Fixtures.fs)
        (Fixtures.agent_with (Fixtures.chroma_of [("alpha", Fixtures.md, 0.25%float)])
           Fixtures.llm) "alpha").1,
     Ok "Answer").
Proof.
  apply (ask_question_joins_the_stream (Fixtures.world Fixtures.fs)
           (Fixtures.agent_with (Fixtures.chroma_of [("alpha", Fixtures.md, 0.25%float)])
              Fixtures.llm) "alpha").
  intros context. reflexivity.
Defined.





Lemma expand_query_head (query : string) :
  ∃ rest, _expand_query query = query :: rest.
Proof.
  unfold _expand_query.
  destruct (negb (Str.endswith query "?")),
    (negb (Str.startswith_any (Str.lower query) interrogatives)); by eexists.
Qed.

(** Retrieval from a store on which every search of the query raises. *)
Lemma retrieve_store_down (hash : string → Z) (s : RetrieverStrategy)
    (query : string) (vs : VectorStore) :
  (∀ k, ∃ e, on_similarity_search vs query k = Raise e) →
  retrieve hash s query vs
  = (match s with
     | BasicRetrieverStrategy => [SimilaritySearch query 5]
     | HybridRetrieverStrategy _ _ =>
         [SimilaritySearch query 8; SimilaritySearch query 5]
     | ContextualRetrieverStrategy =>
         [SimilaritySearch query 3; SimilaritySearch query 5]
     end, Ok []).
Proof.
  intros Hdown.
  assert (Hbasic : basic_retrieve query vs = ([SimilaritySearch query 5], Ok [])).
  { rewrite basic_retrieve_run. by destruct (Hdown 5%nat) as [e ->]. }
  destruct s as [|sw kw|]; unfold retrieve.
  - exact Hbasic.
  - unfold hybrid_retrieve, similarity_search. run_exec.
    destruct (Hdown 8%nat) as [e ->]. simpl.
    fold (basic_retrieve query vs). by rewrite Hbasic.
  - unfold contextual_retrieve.
    destruct (expand_query_head query) as [rest ->].
    destruct (Hdown 3%nat) as [e He].
    change (query :: rest) with ([] ++ query :: rest)%list.
    rewrite (search_all_failure vs [] rest query [] e [] (List.Forall2_nil _) He).
    run_exec. by rewrite Hbasic.
Qed.

(** X24. A database that cannot serve the question is not reported as an
    error. When the embedding of the question fails, or the collection
    refuses every query for it, each retrieval strategy ends with no
    snippet, and both entry points of the agent answer with the sentence of
    the empty knowledge base, after similarity searches only. *)
Theorem broken_store_reads_as_no_information (w : World) (self : PDFQAAgent.t)
    (question : string) :
  (∃ e, embed_query (PDFQAAgent.vector_store self) question = Raise e)
  ∨ (∃ emb, embed_query (PDFQAAgent.vector_store self) question = Ok emb
            ∧ ∀ k, ∃ e, collection_query (PDFQAAgent.vector_store self) emb k
                        = Raise e) →
  ∃ tr,
    PDFQAAgent.ask_question w self question = (tr, Ok PDFQAAgent.no_information)
    ∧ PDFQAAgent.ask_question_stream w self question
      = (tr, [PDFQAAgent.no_information])
    ∧ Forall is_search tr.
Proof.
  intros Hbroken.
  assert (Hdown : ∀ k, ∃ e,
            on_similarity_search (PDFQAAgent.store w self) question k = Raise e).
  { intros k. unfold PDFQAAgent.store. simpl.
    unfold ChromaVectorStore_similarity_search.
    destruct Hbroken as [[e He]|(emb & Hemb & Hquery)].
    - rewrite He. by exists e.
    - rewrite Hemb. simpl. destruct (Hquery k) as [e ->]. by exists e. }
  pose proof (retrieve_store_down (hash w) (PDFQAAgent.retriever self) question
                _ Hdown) as Hretrieve.
  eexists. unfold PDFQAAgent.ask_question, PDFQAAgent.ask_question_stream.
  rewrite Hretrieve. run_exec. simpl. rewrite app_nil_r.
  split; [reflexivity|]. split; [reflexivity|].
  destruct (PDFQAAgent.retriever self); by repeat constructor.
Qed.

Lemma broken_store_reads_as_no_information_witness :
  ∃ tr,
    PDFQAAgent.ask_question (Fixtures.world Fixtures.fs)
      (Fixtures.agent Fixtures.chroma_down (HybridRetrieverStrategy 0.7 0.3))
      "alpha"
    = (tr, Ok PDFQAAgent.no_information).
Proof.
  destruct (broken_store_reads_as_no_information (Fixtures.world Fixtures.fs)
              (Fixtures.agent Fixtures.chroma_down (HybridRetrieverStrategy 0.7 0.3))
              "alpha") as (tr & Hask & _).
  - left. by eexists.
  - by exists tr.
Defined.




(** X26. Constructing the agent fails only when one of its three services
    fails to construct, and then with that service's exception: no strategy
    tag, known or not, makes it fail. The agent built holds the services
    constructed and the retriever of its tag, the basic one for an unknown
    tag. *)
Theorem agent_construction (w : World)
    (chunking_strategy retrieval_strategy : string) :
  (∀ a, PDFQAAgent.new w chunking_strategy retrieval_strategy = Ok a →
     create_strategy (settings w) (libraries w) chunking_strategy
     = Ok (PDFProcessor.chunking_strategy (PDFQAAgent.pdf_processor a))
     ∧ new_ChromaVectorStore w = Ok (PDFQAAgent.vector_store a)
     ∧ new_GroqLLMService w = Ok (PDFQAAgent.llm_service a)
     ∧ PDFQAAgent.retriever a
       = default BasicRetrieverStrategy (retriever_strategies !! retrieval_strategy))
  ∧ (∀ e, PDFQAAgent.new w chunking_strategy retrieval_strategy = Raise e →
       create_strategy (settings w) (libraries w) chunking_strategy = Raise e
       ∨ new_ChromaVectorStore w = Raise e
       ∨ new_GroqLLMService w = Raise e)
  ∧ ((∃ s, create_strategy (settings w) (libraries w) chunking_strategy = Ok s) →
     (∃ v, new_ChromaVectorStore w = Ok v) →
     (∃ l, new_GroqLLMService w = Ok l) →
     ∃ a, PDFQAAgent.new w chunking_strategy retrieval_strategy = Ok a).
Proof.
  assert (Hr : create_retriever retrieval_strategy
               = Ok (default BasicRetrieverStrategy
                       (retriever_strategies !! retrieval_strategy))).
  { rewrite create_retriever_class, retriever_strategies_lookup.
    by repeat case_decide. }
  unfold PDFQAAgent.new, PDFProcessor.new, try_result. rewrite Hr.
  destruct (create_strategy _ _ chunking_strategy) as [s|es];
    destruct (new_ChromaVectorStore w) as [v|ev];
    destruct (new_GroqLLMService w) as [l|el]; simpl;
    (split; [intros a Ha; try discriminate Ha|
             split; [intros e He; try discriminate He|]]).
  all: try (injection Ha as <-; by simpl).
  all: try (injection He as ->; tauto).
  all: try (intros [? Hs] [? Hv] [? Hl]; discriminate Hs || discriminate Hv
                                         || discriminate Hl).
  intros _ _ _. by eexists.
Qed.
